(** * pyrevit.revit.db.query: query helpers over the Revit document model

  A shallow embedding of [pyrevitlib/pyrevit/revit/db/query.py].

  The module is glue over the Revit API.  Host objects (elements, grids,
  documents, curves, ...) are opaque: they are type variables of the
  sections below and every host call the source makes is a function
  variable named after the API member it stands for.  What the Python code
  itself does (loops, tests, raised exceptions, dictionaries, sets) is
  written out. *)

From Stdlib Require Import ZArith List String Ascii Bool Arith Lia.
From Stdlib Require Import Sorting.Sorted.
Import ListNotations.

Set Implicit Arguments.

(** ** Python run-time: exceptions, results, strings *)

Module Py.

(** The exceptions the module can end with.  [PyRevitException] is the
    one the module raises itself; the others are raised by the
    interpreter, [HostError] by a call into the Revit API. *)
Inductive exn : Type :=
| PyRevitException (msg : string)
| IndexError
| UnboundLocalError
| TypeError
| AttributeError
| HostError (msg : string).

Definition is_PyRevitException (e : exn) : bool :=
  match e with PyRevitException _ => true | _ => false end.

(** A call either returns or raises. *)
Inductive result (A : Type) : Type :=
| Return (a : A)
| Raise (e : exn).
Arguments Return {A} a.
Arguments Raise {A} e.

Definition bind {A B} (c : result A) (k : A -> result B) : result B :=
  match c with
  | Return a => k a
  | Raise e => Raise e
  end.

Definition raises {A} (c : result A) : bool :=
  match c with Return _ => false | Raise _ => true end.

(** [for x in xs: body] over a loop state [s]; an exception in the body
    leaves the loop. *)
Fixpoint for_in {S A} (xs : list A) (body : S -> A -> result S) (s : S)
  : result S :=
  match xs with
  | [] => Return s
  | x :: xs' => bind (body s x) (for_in xs' body)
  end.

(** [try: body except Exception as e: raise handler(e)]: every exception
    of the body is an [Exception] and is replaced. *)
Definition try_reraise {A} (body : result A) (handler : exn -> exn)
  : result A :=
  match body with
  | Return a => Return a
  | Raise e => Raise (handler e)
  end.

(** Truth value of a .NET string reference: null and the empty string are
    false. *)
Definition str_truthy (s : option string) : bool :=
  match s with
  | Some (String _ _) => true
  | _ => false
  end.

(** [str.lower] on the ASCII range. *)
Definition lower_char (c : ascii) : ascii :=
  let n := nat_of_ascii c in
  if (65 <=? n) && (n <=? 90) then ascii_of_nat (n + 32) else c.

Fixpoint lower (s : string) : string :=
  match s with
  | EmptyString => EmptyString
  | String c s' => String (lower_char c) (lower s')
  end.

(** [str.isspace]: at least one character and all of them whitespace
    (tab, line feed, vertical tab, form feed, carriage return, the four
    separators 28 to 31, and space). *)
Definition space_char (c : ascii) : bool :=
  let n := nat_of_ascii c in
  (n =? 32) || ((9 <=? n) && (n <=? 13)) || ((28 <=? n) && (n <=? 31)).

Fixpoint all_space (s : string) : bool :=
  match s with
  | EmptyString => true
  | String c s' => space_char c && all_space s'
  end.

Definition isspace (s : string) : bool :=
  match s with
  | EmptyString => false
  | String _ _ => all_space s
  end.

(** [t in s] for two strings: [t] occurs in [s] as a substring. *)
Fixpoint str_in (t s : string) : bool :=
  String.prefix t s ||
  match s with
  | EmptyString => false
  | String _ s' => str_in t s'
  end.

End Py.

Import Py.

Declare Scope py_scope.
Notation "x <- c ;; k" := (Py.bind c (fun x => k))
(at level 61, c at next level, right associativity) : py_scope.
Local Open Scope py_scope.

(** [str_in] is Python's substring test: [t in s] holds when [s] is some
    text, then [t], then some text. *)
Lemma prefix_append (t s : string) :
  String.prefix t s = true <-> exists b, s = (t ++ b)%string.
Proof.
  revert s. induction t as [|c t IH]; intros s.
  - destruct s; simpl; split; eauto.
  - destruct s as [|c' s]; simpl.
    + split; [discriminate|]. intros (b & H). discriminate.
    + destruct (ascii_dec c c') as [->|Hne].
      * rewrite IH. split; intros (b & H); exists b.
        -- now rewrite H.
        -- now injection H.
      * split; [discriminate|]. intros (b & H). injection H. congruence.
Qed.

Lemma str_in_substring (t s : string) :
  str_in t s = true <-> exists a b, s = (a ++ t ++ b)%string.
Proof.
  induction s as [|c s IH]; cbn [str_in].
  - rewrite orb_false_r, prefix_append. split.
    + intros (b & H). now exists EmptyString, b.
    + intros (a & b & H). destruct a; simpl in H; [eauto|discriminate].
  - rewrite orb_true_iff, prefix_append, IH. split.
    + intros [(b & H)|(a & b & H)].
      * now exists EmptyString, b.
      * exists (String c a), b. simpl. now rewrite H.
    + intros (a & b & H). destruct a as [|c' a]; simpl in H.
      * left. eauto.
      * right. injection H as _ ->. eauto.
Qed.

(** ** Parameters and their values *)

(** [DB.StorageType]. *)
Inductive StorageType : Type :=
| StorageType_None
| StorageType_Integer
| StorageType_Double
| StorageType_String
| StorageType_ElementId.

(** [DB.ElementId], an integer in a box. *)
Record ElementId : Type := { IntegerValue : Z }.

Section ParameterValues.

(** [System.Double] with Python's [==] on two floats and on an int and a
    float. *)
Variable float : Type.
Variable float_eqb : float -> float -> bool.
Variable int_float_eqb : Z -> float -> bool.

(** A [DB.Parameter] as the module reads it: its storage type and the
    four typed accessors ([AsString] may answer null). *)
Record RevitParameter : Type := {
  storage_type : StorageType;
  AsDouble : float;
  AsInteger : Z;
  AsString : option string;
  AsElementId : ElementId
}.

(** The Python objects a parameter value can be. *)
Inductive value : Type :=
| VNone
| VFloat (d : float)
| VInt (i : Z)
| VStr (s : string)
| VElementId (id : ElementId).

Definition is_None (v : value) : bool :=
  match v with VNone => true | _ => false end.

(** [type(v) == str] *)
Definition is_str (v : value) : bool :=
  match v with VStr _ => true | _ => false end.

(** [a == b] *)
Definition py_eq (a b : value) : bool :=
  match a, b with
  | VNone, VNone => true
  | VFloat x, VFloat y => float_eqb x y
  | VInt x, VInt y => Z.eqb x y
  | VInt x, VFloat y => int_float_eqb x y
  | VFloat x, VInt y => int_float_eqb y x
  | VStr x, VStr y => String.eqb x y
  | VElementId x, VElementId y => Z.eqb (IntegerValue x) (IntegerValue y)
  | _, _ => false
  end.

(** [a in b], reached only with [b] a string: a left operand that is not
    a string is a [TypeError]. *)
Definition py_in (a b : value) : result bool :=
  match a, b with
  | VStr t, VStr s => Return (str_in t s)
  | _, _ => Raise TypeError
  end.

(** [value.isspace()], reached only with [value] a string. *)
Definition value_isspace (v : value) : bool :=
  match v with VStr s => isspace s | _ => false end.

(** A .NET string reference as a Python object: null is [None]. *)
Definition str_or_None (s : option string) : value :=
  match s with Some s' => VStr s' | None => VNone end.

(** [get_param_value]: no branch binds [value] for a storage type
    outside the four tested ones, and [return value] then fails. *)
Definition get_param_value (targetparam : RevitParameter) : result value :=
  match storage_type targetparam with
  | StorageType_Double => Return (VFloat (AsDouble targetparam))
  | StorageType_Integer => Return (VInt (AsInteger targetparam))
  | StorageType_String =>
      Return (match AsString targetparam with
              | Some s => VStr s
              | None => VNone
              end)
  | StorageType_ElementId => Return (VElementId (AsElementId targetparam))
  | StorageType_None => Raise UnboundLocalError
  end.

(** A Python [set] of values, kept in insertion order: [add] leaves the
    set alone when it holds an element equal to the new one. *)
Definition set_add (v : value) (s : list value) : list value :=
  if existsb (py_eq v) s then s else s ++ [v].

(** *** The document side *)

Variable Document : Type.
Variable Element : Type.
(** [HOST_APP.doc] *)
Variable HOST_APP_doc : Document.
(** [DB.FilteredElementCollector(d).WhereElementIsNotElementType().ToElements()] *)
Variable non_type_elements : Document -> list Element.
(** [el.LookupParameter(name)], null when the element has none *)
Variable LookupParameter : Element -> string -> option RevitParameter.
(** [pyrevit.compat.safe_strtype], the text type of the running Python *)
Variable safe_strtype : value -> string.

(** [doc or HOST_APP.doc] *)
Definition doc_or_host (doc : option Document) : Document :=
  match doc with Some d => d | None => HOST_APP_doc end.

Definition get_all_elements (doc : option Document) : list Element :=
  non_type_elements (doc_or_host doc).

(** The test [value is not None and safe_strtype(value).lower() != 'none']. *)
Definition usable (v : value) : bool :=
  negb (is_None v) && negb (String.eqb (lower (safe_strtype v)) "none").

(** The body of the loop of [get_value_range]: both branches of the
    inner test add the value. *)
Definition value_range_body (param_name : string) (values : list value)
    (el : Element) : result (list value) :=
  match LookupParameter el param_name with
  | Some targetparam =>
      v <- get_param_value targetparam ;;
      if usable v then
        if is_str v && negb (value_isspace v)
        then Return (set_add v values)
        else Return (set_add v values)
      else Return values
  | None => Return values
  end.

Definition get_value_range (param_name : string) (doc : option Document)
  : result (list value) :=
  for_in (get_all_elements doc) (value_range_body param_name) [].

(** [get_value_range] as the claim simplifies it: the [isspace] test and
    its two branches replaced by the one [values.add(value)]. *)
Definition value_range_body_simplified (param_name : string)
    (values : list value) (el : Element) : result (list value) :=
  match LookupParameter el param_name with
  | Some targetparam =>
      v <- get_param_value targetparam ;;
      if usable v then Return (set_add v values) else Return values
  | None => Return values
  end.

Definition get_value_range_simplified (param_name : string)
    (doc : option Document) : result (list value) :=
  for_in (get_all_elements doc) (value_range_body_simplified param_name) [].

(** The body of the loop of [get_elements_by_parameter]. *)
Definition by_parameter_body (param_name : string) (param_value : value)
    (partial : bool) (found_els : list Element) (el : Element)
  : result (list Element) :=
  match LookupParameter el param_name with
  | Some targetparam =>
      v <- get_param_value targetparam ;;
      hit <- (if partial && negb (is_None v) && is_str v
              then py_in param_value v
              else Return false) ;;
      if hit then Return (found_els ++ [el])
      else if py_eq param_value v then Return (found_els ++ [el])
      else Return found_els
  | None => Return found_els
  end.

Definition get_elements_by_parameter (param_name : string)
    (param_value : value) (doc : option Document) (partial : bool)
  : result (list Element) :=
  for_in (get_all_elements doc)
    (by_parameter_body param_name param_value partial) [].

(** The test [get_elements_by_parameter] applies to an element, as a
    boolean: the element has the parameter, and its value contains
    [param_value] (partial search over strings) or equals it. *)
Definition param_matches (param_name : string) (param_value : value)
    (partial : bool) (el : Element) : bool :=
  match LookupParameter el param_name with
  | Some targetparam =>
      match get_param_value targetparam with
      | Return v =>
          (partial && negb (is_None v) && is_str v &&
           match param_value, v with
           | VStr t, VStr s => str_in t s
           | _, _ => false
           end)
          || py_eq param_value v
      | Raise _ => false
      end
  | None => false
  end.

(** *** Loops *)

Lemma for_in_ext (S A : Type) (f g : S -> A -> result S) (xs : list A) :
  (forall s x, f s x = g s x) -> forall s, for_in xs f s = for_in xs g s.
Proof.
  intros Hfg; induction xs as [|x xs IH]; intros s; simpl; [reflexivity|].
  rewrite Hfg. destruct (g s x); simpl; auto.
Qed.

Lemma for_in_app (S A : Type) (f : S -> A -> result S) (xs ys : list A) s :
  for_in (xs ++ ys) f s = bind (for_in xs f s) (for_in ys f).
Proof.
  revert s; induction xs as [|x xs IH]; intros s; simpl; [reflexivity|].
  destruct (f s x); simpl; auto.
Qed.

(** *** [get_param_value] *)

Lemma get_param_value_raises (p : RevitParameter) :
  raises (get_param_value p) = true <-> storage_type p = StorageType_None.
Proof.
  unfold get_param_value; destruct (storage_type p); simpl;
    split; intros H; congruence.
Qed.

(** C8: [get_param_value] answers for the storage types Double, Integer,
    String and ElementId, with what [AsDouble], [AsInteger], [AsString] and
    [AsElementId] give; for every other storage type (the enumeration has
    one more, [StorageType.None]) no branch binds the result and the call
    ends with an unbound local variable: it raises, it does not return
    [None]. *)
Theorem get_param_value_defined_on_four_storage_types (p : RevitParameter) :
  (storage_type p = StorageType_Double ->
     get_param_value p = Return (VFloat (AsDouble p))) /\
  (storage_type p = StorageType_Integer ->
     get_param_value p = Return (VInt (AsInteger p))) /\
  (storage_type p = StorageType_String ->
     get_param_value p = Return (str_or_None (AsString p))) /\
  (storage_type p = StorageType_ElementId ->
     get_param_value p = Return (VElementId (AsElementId p))) /\
  (storage_type p <> StorageType_Double ->
   storage_type p <> StorageType_Integer ->
   storage_type p <> StorageType_String ->
   storage_type p <> StorageType_ElementId ->
     storage_type p = StorageType_None /\
     get_param_value p = Raise UnboundLocalError /\
     get_param_value p <> Return VNone).
Proof.
  unfold get_param_value.
  repeat split; try (intros E; rewrite E; reflexivity);
    destruct (storage_type p); intros; congruence.
Qed.

(** *** [get_value_range] *)

(** Element [el] has the parameter and its value [v] passes the test of
    [get_value_range]: it is not [None] and its text, lowercased, is not
    ['none']. *)
Definition carries_usable (param_name : string) (el : Element) (v : value)
  : Prop :=
  exists p, LookupParameter el param_name = Some p /\
            get_param_value p = Return v /\
            is_None v = false /\
            lower (safe_strtype v) <> "none"%string.

(** [v] is in the set [s]: [s] holds [v] or an element that [==] makes
    equal to it. *)
Definition held (v : value) (s : list value) : Prop :=
  In v s \/ existsb (py_eq v) s = true.

Lemma usable_true (v : value) :
  usable v = true <->
  is_None v = false /\ lower (safe_strtype v) <> "none"%string.
Proof.
  unfold usable. rewrite andb_true_iff, !negb_true_iff.
  destruct (String.eqb_spec (lower (safe_strtype v)) "none"); split;
    intros [H1 H2]; split; congruence.
Qed.

Lemma held_set_add_same (v : value) (s : list value) : held v (set_add v s).
Proof.
  unfold held, set_add. destruct (existsb (py_eq v) s) eqn:E.
  - now right.
  - left. apply in_or_app. right. now left.
Qed.

Lemma held_set_add_mono (v x : value) (s : list value) :
  held v s -> held v (set_add x s).
Proof.
  unfold held, set_add. destruct (existsb (py_eq x) s); [tauto|].
  intros [H|H]; [left; apply in_or_app; now left|].
  right. rewrite existsb_app, H. reflexivity.
Qed.

Lemma in_set_add (v x : value) (s : list value) :
  In v (set_add x s) -> In v s \/ v = x.
Proof.
  unfold set_add. destruct (existsb (py_eq x) s); [tauto|].
  intros H. apply in_app_or in H. destruct H as [H|[H|[]]]; auto.
Qed.

Lemma value_range_body_simplifies (param_name : string)
    (values : list value) (el : Element) :
  value_range_body param_name values el =
  value_range_body_simplified param_name values el.
Proof.
  unfold value_range_body, value_range_body_simplified.
  destruct (LookupParameter el param_name) as [p|]; [|reflexivity].
  destruct (get_param_value p) as [v|e]; simpl; [|reflexivity].
  destruct (usable v); [|reflexivity].
  destruct (is_str v && negb (value_isspace v)); reflexivity.
Qed.

Lemma value_range_body_cases (param_name : string) (values : list value)
    (el : Element) (r : list value) :
  value_range_body_simplified param_name values el = Return r ->
  (r = values /\ forall v, ~ carries_usable param_name el v) \/
  (exists v, carries_usable param_name el v /\ r = set_add v values /\
             forall w, carries_usable param_name el w -> w = v).
Proof.
  unfold value_range_body_simplified, carries_usable.
  destruct (LookupParameter el param_name) as [p|].
  2:{ intros [= <-]. left. split; [reflexivity|].
      intros v (q & Hq & _). discriminate. }
  destruct (get_param_value p) as [v|e] eqn:Ev; simpl; [|discriminate].
  destruct (usable v) eqn:Eu; intros [= <-].
  - right. exists v. apply usable_true in Eu. split; [|split].
    + exists p. tauto.
    + reflexivity.
    + intros w (q & [= <-] & Hw & _). congruence.
  - left. split; [reflexivity|].
    intros w (q & [= <-] & Hw & Hu). rewrite Ev in Hw. injection Hw as <-.
    apply usable_true in Hu. congruence.
Qed.

Lemma value_range_loop (param_name : string) (els : list Element) :
  forall acc vals,
    for_in els (value_range_body_simplified param_name) acc = Return vals ->
    (forall v, In v vals ->
       In v acc \/ exists el, In el els /\ carries_usable param_name el v) /\
    (forall v, held v acc -> held v vals) /\
    (forall el v, In el els -> carries_usable param_name el v -> held v vals).
Proof.
  induction els as [|a els IH]; intros acc vals; simpl.
  - intros [= <-]. repeat split; auto. intros el v [].
  - destruct (value_range_body_simplified param_name acc a) as [acc'|e] eqn:Eb;
      simpl; [|discriminate].
    intros Hloop. destruct (IH _ _ Hloop) as (Hin & Hmono & Hall).
    apply value_range_body_cases in Eb.
    repeat split.
    + intros v Hv. destruct (Hin v Hv) as [Hacc|(el & Hel & Hc)].
      * destruct Eb as [(-> & _)|(x & Hx & -> & _)]; [now left|].
        apply in_set_add in Hacc. destruct Hacc as [Hacc| ->]; [now left|].
        right. exists a. split; [now left|assumption].
      * right. exists el. split; [now right|assumption].
    + intros v Hv. apply Hmono.
      destruct Eb as [(-> & _)|(x & _ & -> & _)]; [assumption|].
      now apply held_set_add_mono.
    + intros el v [<-|Hel] Hc; [|eauto].
      destruct Eb as [(_ & Hno)|(x & _ & -> & Huniq)].
      * now destruct (Hno v).
      * apply Hmono. rewrite (Huniq v Hc). apply held_set_add_same.
Qed.

Lemma value_range_loop_raises (param_name : string) (els : list Element) :
  forall acc e,
    for_in els (value_range_body_simplified param_name) acc = Raise e ->
    e = UnboundLocalError /\
    exists el p, In el els /\ LookupParameter el param_name = Some p /\
                 storage_type p = StorageType_None.
Proof.
  induction els as [|a els IH]; intros acc e; simpl; [discriminate|].
  destruct (value_range_body_simplified param_name acc a) as [acc'|e'] eqn:Eb;
    simpl.
  - intros H. destruct (IH _ _ H) as (-> & el & p & Hel & Hp).
    split; [reflexivity|]. exists el, p. split; [now right|assumption].
  - intros [= <-]. revert Eb. unfold value_range_body_simplified.
    destruct (LookupParameter a param_name) as [p|] eqn:El; [|discriminate].
    pose proof (get_param_value_raises p) as Hr.
    unfold get_param_value in *.
    destruct (storage_type p) eqn:Es; simpl;
      try (destruct (usable _); discriminate).
    intros [= <-]. split; [reflexivity|].
    exists a, p. split; [now left|]. split; assumption.
Qed.

Lemma value_range_loop_returns (param_name : string) (els : list Element) :
  (forall el p, In el els -> LookupParameter el param_name = Some p ->
                storage_type p <> StorageType_None) ->
  forall acc, exists vals,
    for_in els (value_range_body_simplified param_name) acc = Return vals.
Proof.
  intros Hok acc.
  destruct (for_in els (value_range_body_simplified param_name) acc)
    as [vals|e] eqn:E; [eauto|].
  apply value_range_loop_raises in E.
  destruct E as (_ & el & p & Hel & Hp & Hs). now destruct (Hok el p).
Qed.

Lemma get_value_range_simplifies (param_name : string)
    (doc : option Document) :
  get_value_range param_name doc = get_value_range_simplified param_name doc.
Proof.
  unfold get_value_range, get_value_range_simplified.
  apply for_in_ext. intros s x. apply value_range_body_simplifies.
Qed.

(** C10: the whitespace test of [get_value_range] changes nothing.  On
    every document the function gives what the version without the test
    gives, and the set it returns holds every parameter value that is not
    [None] and whose lowercased text is not ['none'] (a string of
    whitespace like any other), and nothing else. *)
Theorem get_value_range_isspace_test_ineffective (param_name : string)
    (doc : option Document) :
  get_value_range param_name doc = get_value_range_simplified param_name doc /\
  forall vals, get_value_range param_name doc = Return vals ->
    (forall el v, In el (get_all_elements doc) ->
       carries_usable param_name el v -> held v vals) /\
    (forall el p s, In el (get_all_elements doc) ->
       LookupParameter el param_name = Some p ->
       get_param_value p = Return (VStr s) ->
       isspace s = true ->
       lower (safe_strtype (VStr s)) <> "none"%string ->
       held (VStr s) vals) /\
    (forall v, In v vals ->
       exists el, In el (get_all_elements doc) /\
                  carries_usable param_name el v).
Proof.
  split; [apply get_value_range_simplifies|].
  intros vals. rewrite get_value_range_simplifies.
  unfold get_value_range_simplified. intros Hloop.
  destruct (value_range_loop _ _ _ Hloop) as (Hin & _ & Hall).
  repeat split.
  - exact Hall.
  - intros el p s Hel Hp Hv _ Hs. apply (Hall el); [assumption|].
    exists p. repeat split; assumption.
  - intros v Hv. destruct (Hin v Hv) as [[]|H]; exact H.
Qed.

(** *** [get_elements_by_parameter] *)

Lemma param_matches_spec (param_name : string) (param_value : value)
    (partial : bool) (el : Element) :
  param_matches param_name param_value partial el = true <->
  exists p v,
    LookupParameter el param_name = Some p /\
    get_param_value p = Return v /\
    ((partial = true /\
      exists t s, param_value = VStr t /\ v = VStr s /\ str_in t s = true) \/
     py_eq param_value v = true).
Proof.
  unfold param_matches.
  destruct (LookupParameter el param_name) as [p|].
  2:{ split; [discriminate|]. intros (p & v & [=] & _). }
  destruct (get_param_value p) as [v|e] eqn:Ev.
  2:{ split; [discriminate|]. intros (q & v & [= <-] & Hv & _). congruence. }
  rewrite orb_true_iff. split.
  - intros H. exists p, v. repeat split; try assumption.
    destruct H as [H|H]; [left|now right].
    rewrite !andb_true_iff in H. destruct H as [[[Hp _] _] Hin].
    split; [assumption|].
    destruct param_value as [| | |t|]; try discriminate.
    destruct v as [| | |s0|]; try discriminate. eauto.
  - intros (q & w & [= <-] & Hw & H). rewrite Ev in Hw. injection Hw as <-.
    destruct H as [(-> & t & s0 & -> & -> & Hin)|H]; [left|now right].
    simpl. assumption.
Qed.

Lemma by_parameter_body_filter (param_name : string) (param_value : value)
    (partial : bool) (found_els : list Element) (el : Element) :
  (forall p, LookupParameter el param_name = Some p ->
             storage_type p <> StorageType_None) ->
  (partial = true -> is_str param_value = true) ->
  by_parameter_body param_name param_value partial found_els el =
  Return (found_els ++
          filter (param_matches param_name param_value partial) [el]).
Proof.
  intros Hst Hstr. unfold by_parameter_body, param_matches. simpl.
  destruct (LookupParameter el param_name) as [p|];
    [|now rewrite app_nil_r].
  destruct (get_param_value p) as [v|e] eqn:Ev.
  2:{ exfalso. apply (Hst p eq_refl). apply get_param_value_raises.
      now rewrite Ev. }
  simpl. destruct partial; simpl.
  - specialize (Hstr eq_refl).
    destruct param_value as [| | |t|]; try discriminate.
    destruct v as [| | |s0|]; simpl; rewrite ?app_nil_r; try reflexivity;
      try (destruct (Z.eqb _ _); simpl; now rewrite ?app_nil_r).
    destruct (str_in t s0); simpl; [reflexivity|].
    destruct (String.eqb t s0); simpl; now rewrite ?app_nil_r.
  - destruct (py_eq param_value v); simpl; now rewrite ?app_nil_r.
Qed.

Lemma by_parameter_loop (param_name : string) (param_value : value)
    (partial : bool) (els : list Element) :
  (forall el p, In el els -> LookupParameter el param_name = Some p ->
                storage_type p <> StorageType_None) ->
  (partial = true -> is_str param_value = true) ->
  forall found_els,
    for_in els (by_parameter_body param_name param_value partial) found_els =
    Return (found_els ++
            filter (param_matches param_name param_value partial) els).
Proof.
  intros Hst Hstr. induction els as [|a els IH]; intros found_els.
  - simpl. now rewrite app_nil_r.
  - cbn [for_in].
    rewrite by_parameter_body_filter;
      [|intros p; apply Hst; now left|assumption].
    cbn [bind]. rewrite IH; [|intros el p Hel; apply Hst; now right].
    rewrite <- app_assoc. f_equal. f_equal.
    change (a :: els) with ([a] ++ els). now rewrite filter_app.
Qed.

(** When every parameter found has one of the four storage types that
    [get_param_value] reads, and a partial search is a search for a
    string, [get_elements_by_parameter] returns the elements of the host
    collection (the non-type elements of the document) that pass its test,
    in the collection's order and untouched: an element is returned iff it
    is in the collection, has the parameter [param_name], and the
    parameter's value either contains [param_value] (with [partial] on and
    both strings) or equals [param_value]. *)
Theorem get_elements_by_parameter_filters_host_collection
    (param_name : string) (param_value : value) (doc : option Document)
    (partial : bool) :
  (forall el p, In el (get_all_elements doc) ->
                LookupParameter el param_name = Some p ->
                storage_type p <> StorageType_None) ->
  (partial = true -> is_str param_value = true) ->
  exists found_els,
    get_elements_by_parameter param_name param_value doc partial =
      Return found_els /\
    found_els =
      filter (param_matches param_name param_value partial)
             (get_all_elements doc) /\
    forall el,
      In el found_els <->
      In el (get_all_elements doc) /\
      exists p v,
        LookupParameter el param_name = Some p /\
        get_param_value p = Return v /\
        ((partial = true /\
          exists t s, param_value = VStr t /\ v = VStr s /\
                      str_in t s = true) \/
         py_eq param_value v = true).
Proof.
  intros Hst Hstr.
  exists (filter (param_matches param_name param_value partial)
                 (get_all_elements doc)).
  split; [|split; [reflexivity|]].
  - unfold get_elements_by_parameter.
    now rewrite by_parameter_loop.
  - intros el. rewrite filter_In, param_matches_spec. reflexivity.
Qed.

(** *** Lookups that find nothing *)

(** When the parameters found can be read and none of them has a usable
    value, [get_value_range] returns the empty set. *)
Lemma get_value_range_empty (param_name : string) (doc : option Document) :
  (forall el p, In el (get_all_elements doc) ->
                LookupParameter el param_name = Some p ->
                storage_type p <> StorageType_None) ->
  (forall el v, In el (get_all_elements doc) ->
                ~ carries_usable param_name el v) ->
  get_value_range param_name doc = Return [].
Proof.
  intros Hst Hno. rewrite get_value_range_simplifies.
  unfold get_value_range_simplified.
  destruct (@value_range_loop_returns param_name _ Hst []) as (vals & Hvals).
  rewrite Hvals. f_equal.
  destruct (@value_range_loop _ _ _ _ Hvals) as (Hin & _).
  destruct vals as [|v vals]; [reflexivity|].
  destruct (Hin v (or_introl eq_refl)) as [[]|(el & Hel & Hc)].
  now destruct (Hno el v).
Qed.

(** When no element has the parameter, [get_elements_by_parameter]
    returns the empty list, whatever is searched for. *)
Lemma get_elements_by_parameter_empty (param_name : string)
    (param_value : value) (doc : option Document) (partial : bool) :
  (forall el, In el (get_all_elements doc) ->
              LookupParameter el param_name = None) ->
  get_elements_by_parameter param_name param_value doc partial = Return [].
Proof.
  unfold get_elements_by_parameter.
  generalize (@nil Element) as found_els.
  induction (get_all_elements doc) as [|el els IH]; intros found_els Hno;
    simpl; [reflexivity|].
  unfold by_parameter_body at 1. rewrite (Hno el (or_introl eq_refl)).
  simpl. apply IH. intros el' Hel'. apply Hno. now right.
Qed.

(** [get_value_range] fails exactly on the documents in which some
    element has the parameter with storage type [StorageType.None], and
    then with the unbound local of [get_param_value]. *)
Lemma get_value_range_raises_iff (param_name : string)
    (doc : option Document) :
  (raises (get_value_range param_name doc) = true <->
   exists el p, In el (get_all_elements doc) /\
                LookupParameter el param_name = Some p /\
                storage_type p = StorageType_None) /\
  (forall e, get_value_range param_name doc = Raise e ->
             e = UnboundLocalError).
Proof.
  rewrite get_value_range_simplifies. unfold get_value_range_simplified.
  split; [split|].
  - destruct (for_in (get_all_elements doc)
                (value_range_body_simplified param_name) []) as [vals|e] eqn:E;
      [discriminate|].
    intros _. now apply value_range_loop_raises in E.
  - intros (el & p & Hel & Hp & Hs).
    apply in_split in Hel. destruct Hel as (l1 & l2 & ->).
    rewrite for_in_app.
    destruct (for_in l1 (value_range_body_simplified param_name) [])
      as [acc|e]; [|reflexivity].
    simpl. unfold value_range_body_simplified at 1.
    rewrite Hp. unfold get_param_value. rewrite Hs. reflexivity.
  - intros e E. now apply value_range_loop_raises in E.
Qed.

(** *** The returned set has no equal values *)

(** A set as [values.add] builds it: each value, when it was added, was
    equal to none of the values before it. *)
Inductive built_by_add : list value -> Prop :=
| built_empty : built_by_add []
| built_add (s : list value) (v : value) :
    built_by_add s -> existsb (py_eq v) s = false -> built_by_add (s ++ [v]).

Lemma set_add_built (v : value) (s : list value) :
  built_by_add s -> built_by_add (set_add v s).
Proof.
  intros Hs. unfold set_add.
  destruct (existsb (py_eq v) s) eqn:E; [assumption|].
  now constructor.
Qed.

Lemma value_range_loop_built (param_name : string) (els : list Element) :
  forall acc vals,
    built_by_add acc ->
    for_in els (value_range_body_simplified param_name) acc = Return vals ->
    built_by_add vals.
Proof.
  induction els as [|el els IH]; intros acc vals Hacc; simpl.
  - now intros [= <-].
  - destruct (value_range_body_simplified param_name acc el) as [acc'|e]
      eqn:Eb; simpl; [|discriminate].
    apply IH. apply value_range_body_cases in Eb.
    destruct Eb as [(-> & _)|(v & _ & -> & _)]; [assumption|].
    now apply set_add_built.
Qed.

Lemma built_by_add_later_differs (s : list value) :
  built_by_add s ->
  forall i j a b,
    i < j -> nth_error s i = Some a -> nth_error s j = Some b ->
    py_eq b a = false.
Proof.
  induction 1 as [|s v Hs IH Hv]; intros i j a b Hij Ha Hb.
  - destruct i; discriminate.
  - assert (Hj : j < List.length (s ++ [v]))
      by (apply nth_error_Some; congruence).
    rewrite length_app in Hj. simpl in Hj.
    assert (Hi : i < List.length s) by lia.
    rewrite nth_error_app1 in Ha by assumption.
    destruct (Nat.eq_dec j (List.length s)) as [->|Hne].
    + rewrite nth_error_app2, Nat.sub_diag in Hb by lia.
      injection Hb as <-.
      apply nth_error_In in Ha.
      rewrite <- Bool.not_true_iff_false in Hv |- *.
      intros Heq. apply Hv. apply existsb_exists. eauto.
    + rewrite nth_error_app1 in Hb by lia. eauto.
Qed.

(** No value of the set [get_value_range] returns is equal ([==]) to a
    value that entered the set before it. *)
Theorem get_value_range_values_differ (param_name : string)
    (doc : option Document) (vals : list value) (i j : nat) (a b : value) :
  get_value_range param_name doc = Return vals ->
  i < j -> nth_error vals i = Some a -> nth_error vals j = Some b ->
  py_eq b a = false.
Proof.
  rewrite get_value_range_simplifies. unfold get_value_range_simplified.
  intros Hloop. apply built_by_add_later_differs.
  eapply value_range_loop_built; [constructor|eassumption].
Qed.

(** *** Exact and partial search *)

Lemma param_matches_exact_partial (param_name : string)
    (param_value : value) (el : Element) :
  param_matches param_name param_value false el = true ->
  param_matches param_name param_value true el = true.
Proof.
  unfold param_matches.
  destruct (LookupParameter el param_name) as [p|]; [|auto].
  destruct (get_param_value p) as [v|e]; [|auto].
  simpl. intros ->. apply orb_true_r.
Qed.

(** Searching for a string with [partial] on finds every element the
    exact search finds, and in the same order: the exact result is the
    partial result narrowed to the elements whose value equals the
    string. *)
Theorem get_elements_by_parameter_partial_extends_exact
    (param_name : string) (param_value : value) (doc : option Document) :
  (forall el p, In el (get_all_elements doc) ->
                LookupParameter el param_name = Some p ->
                storage_type p <> StorageType_None) ->
  is_str param_value = true ->
  exists exact partial,
    get_elements_by_parameter param_name param_value doc false
      = Return exact /\
    get_elements_by_parameter param_name param_value doc true
      = Return partial /\
    exact = filter (param_matches param_name param_value false) partial /\
    forall el, In el exact -> In el partial.
Proof.
  intros Hst Hstr. unfold get_elements_by_parameter.
  rewrite !by_parameter_loop by (auto; discriminate). simpl.
  do 2 eexists. split; [reflexivity|]. split; [reflexivity|].
  split.
  - induction (get_all_elements doc) as [|el els IH]; simpl; [reflexivity|].
    destruct (param_matches param_name param_value false el) eqn:E.
    + rewrite (param_matches_exact_partial _ _ _ E). simpl. rewrite E.
      f_equal. apply IH. intros el' p Hel'. apply Hst. now right.
    + destruct (param_matches param_name param_value true el); simpl;
        rewrite ?E; apply IH; intros el' p Hel'; apply Hst; now right.
  - intros el Hel. apply filter_In in Hel. destruct Hel as [Hin Hm].
    apply filter_In. split; [assumption|].
    now apply param_matches_exact_partial.
Qed.

(** *** When the search returns *)

(** Some element has the parameter with storage type [StorageType.None]. *)
Definition unreadable_parameter (param_name : string) (els : list Element)
  : Prop :=
  exists el p, In el els /\ LookupParameter el param_name = Some p /\
               storage_type p = StorageType_None.

(** Some element has the parameter with a string for value. *)
Definition string_valued_parameter (param_name : string)
    (els : list Element) : Prop :=
  exists el p s, In el els /\ LookupParameter el param_name = Some p /\
                 get_param_value p = Return (VStr s).

Lemma get_param_value_raise (p : RevitParameter) (e : exn) :
  get_param_value p = Raise e ->
  e = UnboundLocalError /\ storage_type p = StorageType_None.
Proof.
  unfold get_param_value. destruct (storage_type p); try discriminate.
  now intros [= <-].
Qed.

Lemma by_parameter_body_cases (param_name : string) (param_value : value)
    (partial : bool) (found_els : list Element) (el : Element) :
  match by_parameter_body param_name param_value partial found_els el with
  | Return found =>
      found = found_els ++
              filter (param_matches param_name param_value partial) [el]
  | Raise e =>
      (e = UnboundLocalError /\ unreadable_parameter param_name [el]) \/
      (e = TypeError /\ partial = true /\ is_str param_value = false /\
       string_valued_parameter param_name [el])
  end.
Proof.
  unfold by_parameter_body, param_matches, unreadable_parameter,
    string_valued_parameter. simpl.
  destruct (LookupParameter el param_name) as [p|] eqn:El;
    [|now rewrite app_nil_r].
  destruct (get_param_value p) as [v|e] eqn:Ev; simpl.
  2:{ left. apply get_param_value_raise in Ev. destruct Ev as [-> Hs].
      split; [reflexivity|]. exists el, p. auto. }
  destruct partial; simpl.
  - destruct v as [| | |s0|]; simpl;
      try (destruct (py_eq param_value _); simpl; now rewrite ?app_nil_r).
    destruct param_value as [| | |t|]; simpl;
      try (right; repeat split; exists el, p, s0; auto).
    destruct (str_in t s0); simpl; [reflexivity|].
    destruct (String.eqb t s0); simpl; now rewrite ?app_nil_r.
  - destruct (py_eq param_value v); simpl; now rewrite ?app_nil_r.
Qed.

Lemma by_parameter_loop_cases (param_name : string) (param_value : value)
    (partial : bool) (els : list Element) :
  forall found_els,
    match for_in els (by_parameter_body param_name param_value partial)
                 found_els with
    | Return found =>
        found = found_els ++
                filter (param_matches param_name param_value partial) els
    | Raise e =>
        (e = UnboundLocalError /\ unreadable_parameter param_name els) \/
        (e = TypeError /\ partial = true /\ is_str param_value = false /\
         string_valued_parameter param_name els)
    end.
Proof.
  induction els as [|el els IH]; intros found_els; simpl.
  - now rewrite app_nil_r.
  - pose proof (by_parameter_body_cases param_name param_value partial
                  found_els el) as Hbody.
    destruct (by_parameter_body param_name param_value partial found_els el)
      as [found|e]; simpl.
    + specialize (IH found).
      destruct (for_in els _ found) as [found'|e].
      * rewrite IH, Hbody. simpl.
        destruct (param_matches param_name param_value partial el);
          now rewrite <- app_assoc.
      * destruct IH as [(-> & el' & p & Hin & H)|
                        (-> & Hp & Hs & el' & p & s & Hin & H)];
          [left|right]; repeat split; auto.
        -- exists el', p. split; [now right|assumption].
        -- exists el', p, s. split; [now right|assumption].
    + destruct Hbody as [(-> & el' & p & Hin & H)|
                         (-> & Hp & Hs & el' & p & s & Hin & H)];
        [left|right]; repeat split; auto.
      * exists el', p. destruct Hin as [<-|[]]. split; [now left|assumption].
      * exists el', p, s. destruct Hin as [<-|[]].
        split; [now left|assumption].
Qed.

Lemma by_parameter_loop_raises (param_name : string) (param_value : value)
    (partial : bool) (els : list Element) (el : Element) :
  In el els ->
  (forall found_els,
     raises (by_parameter_body param_name param_value partial found_els el)
     = true) ->
  forall found_els,
    raises (for_in els (by_parameter_body param_name param_value partial)
                   found_els) = true.
Proof.
  intros Hin Hbody found_els. apply in_split in Hin.
  destruct Hin as (l1 & l2 & ->). rewrite for_in_app.
  destruct (for_in l1 _ found_els) as [found|e]; [|reflexivity].
  simpl. specialize (Hbody found).
  now destruct (by_parameter_body param_name param_value partial found el).
Qed.

(** [get_elements_by_parameter] on every input.  It fails exactly when
    some element has the parameter with storage type [StorageType.None],
    or a partial search is made for something that is not a string while
    some element has a string for value; it then ends with the unbound
    local of [get_param_value] or with the type error of [in].  Whenever
    it returns, it returns the elements of the host collection that pass
    its test, in the collection's order. *)
Theorem get_elements_by_parameter_returns_or_raises (param_name : string)
    (param_value : value) (doc : option Document) (partial : bool) :
  let r := get_elements_by_parameter param_name param_value doc partial in
  (raises r = true <->
   unreadable_parameter param_name (get_all_elements doc) \/
   (partial = true /\ is_str param_value = false /\
    string_valued_parameter param_name (get_all_elements doc))) /\
  (forall e, r = Raise e -> e = UnboundLocalError \/ e = TypeError) /\
  (forall found_els,
     r = Return found_els ->
     found_els = filter (param_matches param_name param_value partial)
                        (get_all_elements doc)).
Proof.
  cbv zeta. unfold get_elements_by_parameter.
  pose proof (by_parameter_loop_cases param_name param_value partial
                (get_all_elements doc) []) as Hloop.
  split; [split|split].
  - destruct (for_in (get_all_elements doc) _ []) as [found|e];
      [discriminate|]. intros _. tauto.
  - clear Hloop.
    intros [(el & p & Hin & Hp & Hs)|(-> & Hstr & el & p & s & Hin & Hp & Hv)];
      apply (by_parameter_loop_raises _ _ _ _ el Hin); intros found_els;
      unfold by_parameter_body; rewrite Hp.
    + unfold get_param_value. now rewrite Hs.
    + rewrite Hv. simpl. now destruct param_value.
  - intros e He. rewrite He in Hloop. tauto.
  - intros found_els Hf. rewrite Hf in Hloop. exact Hloop.
Qed.

End ParameterValues.

Arguments VNone {float}.
Arguments VInt {float} i.
Arguments VStr {float} s.
Arguments VElementId {float} id.

(** ** Worksets *)

Section Worksets.

Variable Document : Type.
Variable Workset : Type.
Variable HOST_APP_doc : Document.
(** [DB.FilteredWorksetCollector(d).ToWorksets()] *)
Variable ToWorksets : Document -> list Workset.
(** [workset.Name] *)
Variable Workset_Name : Workset -> string.

(** The first argument of [find_workset], by the type test the function
    makes: a list (of names), a string, or anything else. *)
Inductive workset_name_or_list : Type :=
| NameList (names : list string)
| NameStr (name : string)
| NameOther.

(** The loops return at the first workset that passes; falling off the end
    of the function is Python's [None]. *)
Definition find_workset (arg : workset_name_or_list) (doc : option Document)
    (partial : bool) : option Workset :=
  let workset_clctr := ToWorksets (doc_or_host HOST_APP_doc doc) in
  match arg with
  | NameList names =>
      find (fun workset =>
              existsb (fun workset_name =>
                         str_in workset_name (Workset_Name workset)) names)
           workset_clctr
  | NameStr workset_name =>
      if partial then
        find (fun workset => str_in workset_name (Workset_Name workset))
             workset_clctr
      else
        find (fun workset => String.eqb workset_name (Workset_Name workset))
             workset_clctr
  | NameOther => None
  end.

(** [workset] is one [find_workset arg _ partial] looks for. *)
Definition workset_matches (arg : workset_name_or_list) (partial : bool)
    (workset : Workset) : Prop :=
  match arg with
  | NameList names =>
      exists workset_name,
        In workset_name names /\
        str_in workset_name (Workset_Name workset) = true
  | NameStr workset_name =>
      if partial then str_in workset_name (Workset_Name workset) = true
      else workset_name = Workset_Name workset
  | NameOther => False
  end.

Lemma find_workset_none (arg : workset_name_or_list) (doc : option Document)
    (partial : bool) :
  (forall workset,
     In workset (ToWorksets (doc_or_host HOST_APP_doc doc)) ->
     ~ workset_matches arg partial workset) ->
  find_workset arg doc partial = None.
Proof.
  intros Hno. unfold find_workset.
  destruct arg as [names|name|]; [| destruct partial |reflexivity];
    match goal with |- find ?f ?l = None =>
      destruct (find f l) as [w|] eqn:E; [exfalso|reflexivity]
    end;
    apply find_some in E; destruct E as [Hin Hw];
    apply (Hno w Hin); simpl.
  - apply existsb_exists in Hw. exact Hw.
  - exact Hw.
  - now apply String.eqb_eq.
Qed.

Lemma find_workset_some (arg : workset_name_or_list) (doc : option Document)
    (partial : bool) (workset : Workset) :
  find_workset arg doc partial = Some workset ->
  In workset (ToWorksets (doc_or_host HOST_APP_doc doc)) /\
  workset_matches arg partial workset.
Proof.
  unfold find_workset.
  destruct arg as [names|name|]; [| destruct partial |discriminate];
    intros E; apply find_some in E; destruct E as [Hin Hw];
    (split; [exact Hin|simpl]).
  - apply existsb_exists in Hw. exact Hw.
  - exact Hw.
  - now apply String.eqb_eq.
Qed.

(** *** The first match *)

(** [def model_has_workset(workset_name, partial=False, doc=None)]: it
    hands back what [find_workset] finds, a workset or [None]. *)
Definition model_has_workset (workset_name : workset_name_or_list)
    (partial : bool) (doc : option Document) : option Workset :=
  find_workset workset_name doc partial.

Lemma find_first_split (A : Type) (f : A -> bool) (l : list A) (x : A) :
  find f l = Some x <->
  exists before after,
    l = before ++ x :: after /\ f x = true /\
    forall y, In y before -> f y = false.
Proof.
  induction l as [|a l IH]; simpl.
  - split; [discriminate|]. intros ([|? ?] & after & H & _); discriminate.
  - destruct (f a) eqn:Ea.
    + split.
      * intros [= <-]. exists [], l. repeat split; auto. intros y [].
      * intros ([|b before] & after & H & Hx & Hbefore).
        -- now injection H as <-.
        -- injection H as <- _.
           rewrite (Hbefore a (or_introl eq_refl)) in Ea. discriminate.
    + rewrite IH. split.
      * intros (before & after & -> & Hx & Hbefore).
        exists (a :: before), after. repeat split; auto.
        intros y [<-|Hy]; auto.
      * intros ([|b before] & after & H & Hx & Hbefore).
        -- injection H as -> _. congruence.
        -- injection H as _ ->. exists before, after.
           repeat split; auto. intros y Hy. apply Hbefore. now right.
Qed.

Lemma str_in_refl (s : string) : str_in s s = true.
Proof.
  apply str_in_substring. exists EmptyString, EmptyString.
  simpl. induction s as [|c s IH]; simpl; [reflexivity|]. now rewrite <- IH.
Qed.

(** The test of [find_workset] as a boolean. *)
Definition workset_test (arg : workset_name_or_list) (partial : bool)
    (workset : Workset) : bool :=
  match arg with
  | NameList names =>
      existsb (fun workset_name =>
                 str_in workset_name (Workset_Name workset)) names
  | NameStr workset_name =>
      if partial then str_in workset_name (Workset_Name workset)
      else String.eqb workset_name (Workset_Name workset)
  | NameOther => false
  end.

Lemma workset_test_matches (arg : workset_name_or_list) (partial : bool)
    (workset : Workset) :
  workset_test arg partial workset = true <->
  workset_matches arg partial workset.
Proof.
  destruct arg as [names|name|]; simpl.
  - apply existsb_exists.
  - destruct partial; [reflexivity|apply String.eqb_eq].
  - split; [discriminate|tauto].
Qed.

Lemma find_workset_find (arg : workset_name_or_list) (doc : option Document)
    (partial : bool) :
  find_workset arg doc partial =
  find (workset_test arg partial)
       (ToWorksets (doc_or_host HOST_APP_doc doc)).
Proof.
  unfold find_workset, workset_test.
  destruct arg as [names|name|]; [reflexivity|now destruct partial|].
  induction (ToWorksets (doc_or_host HOST_APP_doc doc)); simpl; auto.
Qed.

(** [find_workset] returns the first workset of the collector, in the
    collector's order, that matches: a workset is returned iff it matches
    and no workset before it does.  With several names it is the first
    workset matching any of them, not the first name that has a match. *)
Theorem find_workset_first_match (arg : workset_name_or_list)
    (doc : option Document) (partial : bool) (workset : Workset) :
  find_workset arg doc partial = Some workset <->
  exists before after,
    ToWorksets (doc_or_host HOST_APP_doc doc) = before ++ workset :: after /\
    workset_matches arg partial workset /\
    forall earlier, In earlier before ->
                    ~ workset_matches arg partial earlier.
Proof.
  rewrite find_workset_find, find_first_split.
  split; intros (before & after & Hsplit & Hw & Hbefore);
    exists before, after; (split; [assumption|]); split.
  - now apply workset_test_matches.
  - intros earlier Hin Hm. apply workset_test_matches in Hm.
    rewrite (Hbefore earlier Hin) in Hm. discriminate.
  - now apply workset_test_matches.
  - intros y Hin. destruct (workset_test arg partial y) eqn:E; [|reflexivity].
    apply workset_test_matches in E. now destruct (Hbefore y Hin).
Qed.

(** [model_has_workset] with its defaults looks for the exact name: it
    answers a workset iff one has that name, and whenever it does,
    [find_workset] with its own defaults (a partial search) answers a
    workset too, one whose name contains the name. *)
Theorem model_has_workset_exact_then_partial (name : string)
    (doc : option Document) :
  (model_has_workset (NameStr name) false doc <> None <->
   exists workset,
     In workset (ToWorksets (doc_or_host HOST_APP_doc doc)) /\
     Workset_Name workset = name) /\
  (forall workset,
     model_has_workset (NameStr name) false doc = Some workset ->
     Workset_Name workset = name /\
     exists found,
       find_workset (NameStr name) doc true = Some found /\
       str_in name (Workset_Name found) = true).
Proof.
  unfold model_has_workset. rewrite !find_workset_find. split.
  - split.
    + destruct (find _ _) as [w|] eqn:E; [intros _|congruence].
      apply find_some in E. destruct E as [Hin Hw].
      apply String.eqb_eq in Hw. eauto.
    + intros (w & Hin & Hw) E.
      apply (find_none _ _ E) in Hin. simpl in Hin.
      rewrite Hw, String.eqb_refl in Hin. discriminate.
  - intros workset Hw. apply find_some in Hw. destruct Hw as [Hin Hw].
    simpl in Hw. apply String.eqb_eq in Hw. split; [now symmetry|].
    destruct (find (workset_test (NameStr name) true) _) as [found|] eqn:E.
    + exists found. split; [reflexivity|].
      apply find_some in E. exact (proj2 E).
    + apply (find_none _ _ E) in Hin. simpl in Hin.
      rewrite <- Hw, str_in_refl in Hin. discriminate.
Qed.

Lemma find_workset_none_iff (arg : workset_name_or_list)
    (doc : option Document) (partial : bool) :
  find_workset arg doc partial = None <->
  forall workset,
    In workset (ToWorksets (doc_or_host HOST_APP_doc doc)) ->
    ~ workset_matches arg partial workset.
Proof.
  rewrite find_workset_find. split.
  - intros Hnone workset Hin Hm. apply workset_test_matches in Hm.
    rewrite (find_none _ _ Hnone workset Hin) in Hm. discriminate.
  - intros Hno.
    destruct (find (workset_test arg partial) _) as [workset|] eqn:E;
      [|reflexivity].
    apply find_some in E. destruct E as [Hin Hm].
    apply workset_test_matches in Hm. now destruct (Hno workset Hin).
Qed.

End Worksets.

(** ** Shared parameter file *)

Section SharedParameters.

Variable DefinitionFile : Type.

(** [HOST_APP.app] as the function reads it: the file name that is set,
    and what [OpenSharedParameterFile()] answers (null when the file does
    not open). *)
Record Application : Type := {
  SharedParametersFilename : option string;
  OpenSharedParameterFile : option DefinitionFile
}.

Definition get_sharedparam_definition_file (app : Application)
  : result DefinitionFile :=
  if str_truthy (SharedParametersFilename app) then
    match OpenSharedParameterFile app with
    | Some sparamf => Return sparamf
    | None => Raise (PyRevitException "Failed opening Shared Parameters file.")
    end
  else Raise (PyRevitException "No Shared Parameters file defined.").

(** C4: [get_sharedparam_definition_file] raises exactly when no shared
    parameters file is defined in the application or the defined file does
    not open; what it raises is then a [PyRevitException]; otherwise it
    returns the opened file. *)
Theorem get_sharedparam_definition_file_raises_iff (app : Application) :
  (raises (get_sharedparam_definition_file app) = true <->
     str_truthy (SharedParametersFilename app) = false \/
     OpenSharedParameterFile app = None) /\
  (forall e, get_sharedparam_definition_file app = Raise e ->
     is_PyRevitException e = true) /\
  (forall sparamf,
     str_truthy (SharedParametersFilename app) = true ->
     OpenSharedParameterFile app = Some sparamf ->
     get_sharedparam_definition_file app = Return sparamf).
Proof.
  unfold get_sharedparam_definition_file.
  destruct (str_truthy (SharedParametersFilename app));
    destruct (OpenSharedParameterFile app) as [f|]; simpl;
    repeat split; intros; try congruence; auto;
    try (destruct H; congruence);
    try (injection H as <-; reflexivity).
Qed.

Lemma get_sharedparam_definition_file_raise (app : Application) (e : exn) :
  get_sharedparam_definition_file app = Raise e ->
  is_PyRevitException e = true /\
  (str_truthy (SharedParametersFilename app) = false \/
   OpenSharedParameterFile app = None).
Proof.
  unfold get_sharedparam_definition_file.
  destruct (str_truthy (SharedParametersFilename app));
    destruct (OpenSharedParameterFile app); intros [= <-]; auto.
Qed.

Lemma get_sharedparam_definition_file_raises (app : Application) :
  raises (get_sharedparam_definition_file app) = true <->
  str_truthy (SharedParametersFilename app) = false \/
  OpenSharedParameterFile app = None.
Proof.
  unfold get_sharedparam_definition_file.
  destruct (str_truthy (SharedParametersFilename app));
    destruct (OpenSharedParameterFile app); simpl;
    split; auto; try discriminate; intros [H|H]; discriminate.
Qed.

End SharedParameters.

(** ** Shared parameters of the file and of the model *)

(** A rule as [get_elements_by_shared_parameter] builds it: a string rule,
    or [DB.FilterInverseRule] around one. *)
Inductive ParameterRule : Type :=
| StringRule (provider : ElementId) (value : string) (case_sensitive : bool)
| InverseRule (rule : ParameterRule).

Section SharedParameterLists.

Variable DefinitionFile : Type.
Variable DefinitionGroup : Type.
(** [DB.Definition] *)
Variable SharedDefinition : Type.
Variable Binding : Type.
Variable Document : Type.
Variable Element : Type.

Variable HOST_APP_doc : Document.
(** [sparamf.Groups] and [def_group.Definitions] *)
Variable Groups : DefinitionFile -> list DefinitionGroup.
Variable Definitions : DefinitionGroup -> list SharedDefinition.
(** [doc.ParameterBindings], as its forward iterator walks it: each key
    with the binding stored under it. *)
Variable ParameterBindings : Document -> list (SharedDefinition * Binding).
(** [param_def.Id] *)
Variable Definition_Id : SharedDefinition -> ElementId.
(** [DB.FilteredElementCollector(doc)
       .WherePasses(DB.ElementParameterFilter(rule)).ToElements()] *)
Variable passing_elements : Document -> ParameterRule -> list Element.

(** [db.ModelSharedParam(param_def, param_binding=None)]: a definition,
    with its binding when it comes from a model.  [ModelSharedParam_name]
    is its [name] property. *)
Record ModelSharedParam : Type := {
  param_def : SharedDefinition;
  param_binding : option Binding
}.
Variable ModelSharedParam_name : ModelSharedParam -> string.

Definition get_defined_sharedparams (app : Application DefinitionFile)
  : result (list ModelSharedParam) :=
  sparamf <- get_sharedparam_definition_file app ;;
  Return (fold_left
            (fun msp_list def_group =>
               msp_list ++
               map (fun x => Build_ModelSharedParam x None)
                   (Definitions def_group))
            (Groups sparamf) []).

Definition get_model_sharedparams (doc : option Document)
  : list ModelSharedParam :=
  let param_bindings := ParameterBindings (doc_or_host HOST_APP_doc doc) in
  fold_left
    (fun msp_list kb =>
       msp_list ++ [Build_ModelSharedParam (fst kb) (Some (snd kb))])
    param_bindings [].

(** The loop returns at the first parameter of that name; the call
    [get_model_sharedparams()] passes no document. *)
Definition get_sharedparam_id (param_name : string) : option ElementId :=
  match find (fun sp => String.eqb (ModelSharedParam_name sp) param_name)
             (get_model_sharedparams None) with
  | Some sp => Some (Definition_Id (param_def sp))
  | None => None
  end.

(** Without a parameter of that name the function falls off its end:
    [None]. *)
Definition get_elements_by_shared_parameter (param_name param_value : string)
    (inverse : bool) (doc : option Document) : option (list Element) :=
  let doc := doc_or_host HOST_APP_doc doc in
  match get_sharedparam_id param_name with
  | Some param_id =>
      let vrule := StringRule param_id param_value true in
      let vrule := if inverse then InverseRule vrule else vrule in
      Some (passing_elements doc vrule)
  | None => None
  end.

Lemma extend_by_groups (groups : list DefinitionGroup) :
  forall msp_list,
    fold_left
      (fun msp_list def_group =>
         msp_list ++
         map (fun x => Build_ModelSharedParam x None) (Definitions def_group))
      groups msp_list
    = msp_list ++
      map (fun x => Build_ModelSharedParam x None)
          (flat_map Definitions groups).
Proof.
  induction groups as [|g groups IH]; intros msp_list; simpl.
  - now rewrite app_nil_r.
  - now rewrite IH, map_app, app_assoc.
Qed.

Lemma append_bindings (bindings : list (SharedDefinition * Binding)) :
  forall msp_list,
    fold_left
      (fun msp_list kb =>
         msp_list ++ [Build_ModelSharedParam (fst kb) (Some (snd kb))])
      bindings msp_list
    = msp_list ++
      map (fun kb => Build_ModelSharedParam (fst kb) (Some (snd kb)))
          bindings.
Proof.
  induction bindings as [|kb bindings IH]; intros msp_list; simpl.
  - now rewrite app_nil_r.
  - now rewrite IH, <- app_assoc.
Qed.

(** [get_defined_sharedparams] fails exactly when the shared parameters
    file is not set or does not open, with the exception of
    [get_sharedparam_definition_file]; otherwise it lists every definition
    of every group of the file once, group after group, none of them
    bound. *)
Theorem get_defined_sharedparams_lists_the_file
    (app : Application DefinitionFile) :
  (raises (get_defined_sharedparams app) = true <->
     str_truthy (SharedParametersFilename app) = false \/
     OpenSharedParameterFile app = None) /\
  (forall e, get_defined_sharedparams app = Raise e <->
             get_sharedparam_definition_file app = Raise e) /\
  (forall sparamf msp_list,
     get_sharedparam_definition_file app = Return sparamf ->
     get_defined_sharedparams app = Return msp_list ->
     map (@param_def) msp_list = flat_map Definitions (Groups sparamf) /\
     (forall msp, In msp msp_list -> param_binding msp = None) /\
     List.length msp_list =
       list_sum (map (fun g => List.length (Definitions g))
                     (Groups sparamf))).
Proof.
  split; [|split].
  - unfold get_defined_sharedparams, get_sharedparam_definition_file.
    destruct (str_truthy (SharedParametersFilename app));
      destruct (OpenSharedParameterFile app) as [f|]; simpl;
      split; auto; try discriminate; intros [H|H]; discriminate.
  - intros e. unfold get_defined_sharedparams.
    destruct (get_sharedparam_definition_file app); simpl;
      split; intros H; try discriminate H; injection H as ->; reflexivity.
  - intros sparamf msp_list Hf. unfold get_defined_sharedparams.
    rewrite Hf. simpl. rewrite extend_by_groups. simpl.
    intros [= <-]. repeat split.
    + rewrite map_map. simpl. apply map_id.
    + intros msp Hin. apply in_map_iff in Hin.
      now destruct Hin as (x & <- & _).
    + rewrite length_map.
      induction (Groups sparamf) as [|g gs IH]; simpl; [reflexivity|].
      now rewrite length_app, IH.
Qed.

(** A shared parameter that the active document does not have gives
    [None], not an empty list: [get_elements_by_shared_parameter] answers
    [None] exactly when no parameter bound in [HOST_APP.doc] has the name.
    When one has, the elements are those of [doc] that pass a
    case-sensitive string rule on the id of the first such parameter, the
    rule inverted when [inverse] is on. *)
Theorem get_elements_by_shared_parameter_missing_parameter
    (param_name param_value : string) (inverse : bool)
    (doc : option Document) :
  let bound := get_model_sharedparams None in
  (get_elements_by_shared_parameter param_name param_value inverse doc = None
   <-> forall sp, In sp bound -> ModelSharedParam_name sp <> param_name) /\
  (forall els,
     get_elements_by_shared_parameter param_name param_value inverse doc
       = Some els ->
     exists before sp after,
       bound = before ++ sp :: after /\
       ModelSharedParam_name sp = param_name /\
       (forall earlier, In earlier before ->
                        ModelSharedParam_name earlier <> param_name) /\
       let rule := StringRule (Definition_Id (param_def sp)) param_value true in
       els = passing_elements (doc_or_host HOST_APP_doc doc)
               (if inverse then InverseRule rule else rule)) /\
  map (@param_def) bound = map fst (ParameterBindings HOST_APP_doc).
Proof.
  intros bound.
  unfold get_elements_by_shared_parameter, get_sharedparam_id. fold bound.
  destruct (find (fun sp => String.eqb (ModelSharedParam_name sp) param_name)
                 bound) as [sp|] eqn:E.
  - split; [|split].
    + split; [discriminate|]. intros Hno. apply find_some in E.
      destruct E as [Hin Hname]. apply String.eqb_eq in Hname.
      now destruct (Hno sp Hin).
    + intros els [= <-].
      apply find_first_split in E.
      destruct E as (before & after & Hsplit & Hname & Hbefore).
      exists before, sp, after. repeat split; try assumption.
      * now apply String.eqb_eq.
      * intros earlier Hin Heq. apply Hbefore in Hin.
        rewrite Heq, String.eqb_refl in Hin. discriminate.
    + unfold bound, get_model_sharedparams. rewrite append_bindings. simpl.
      now rewrite map_map.
  - split; [|split].
    + split; [|reflexivity]. intros _ sp Hin Hname.
      apply (find_none _ _ E) in Hin. simpl in Hin.
      rewrite Hname, String.eqb_refl in Hin. discriminate.
    + intros els [=].
    + unfold bound, get_model_sharedparams. rewrite append_bindings. simpl.
      now rewrite map_map.
Qed.

End SharedParameterLists.

(** ** Links *)

Section Links.

Variable Document : Type.
Variable Element : Type.
Variable ModelPath : Type.
Variable TransmissionData : Type.
Variable ExternalFileReference : Type.
(** The enumeration [DB.ExternalFileReferenceType]: its test for equality,
    and the truth value of a member (a member whose number is zero is
    false). *)
Variable ExternalFileReferenceType : Type.
Variable reftype_eqb :
  ExternalFileReferenceType -> ExternalFileReferenceType -> bool.
Variable reftype_truthy : ExternalFileReferenceType -> bool.

Variable HOST_APP_doc : Document.
(** [doc.PathName] *)
Variable PathName : Document -> option string.
(** [DB.ModelPathUtils.ConvertUserVisiblePathToModelPath], null when the
    path has no model path *)
Variable ConvertUserVisiblePathToModelPath : string -> option ModelPath.
(** [DB.TransmissionData.ReadTransmissionData], null when the file has
    none *)
Variable ReadTransmissionData : ModelPath -> result (option TransmissionData).
Variable GetAllExternalFileReferenceIds :
  TransmissionData -> result (list ElementId).
Variable GetLastSavedReferenceData :
  TransmissionData -> ElementId -> result ExternalFileReference.
(** [doc.GetElement(id)], null when the document has no such element *)
Variable GetElement : Document -> ElementId -> option Element.
(** [extRef.ExternalFileReferenceType] *)
Variable reftype_of : ExternalFileReference -> ExternalFileReferenceType.
(** The text of the exception raised when reading fails:
    ['Error reading links from model path: {} | {}'.format(modelPath, e)] *)
Variable links_error_message : ModelPath -> exn -> string.

(** [db.ExternalRef(link, extRef)]: the link element and its reference
    data, side by side. *)
Record ExternalRef : Type := {
  ExternalRef_link : option Element;
  ExternalRef_extref : ExternalFileReference
}.

(** [if linktype:] *)
Definition linktype_given (linktype : option ExternalFileReferenceType)
  : bool :=
  match linktype with
  | Some t => reftype_truthy t
  | None => false
  end.

(** [extRef.ExternalFileReferenceType == linktype] *)
Definition is_linktype (linktype : option ExternalFileReferenceType)
    (extRef : ExternalFileReference) : bool :=
  match linktype with
  | Some t => reftype_eqb (reftype_of extRef) t
  | None => false
  end.

(** The body of the loop over the reference ids. *)
Definition links_body (linktype : option ExternalFileReferenceType)
    (doc : Document) (transData : TransmissionData)
    (links : list ExternalRef) (refId : ElementId)
  : result (list ExternalRef) :=
  extRef <- GetLastSavedReferenceData transData refId ;;
  let link := GetElement doc refId in
  if linktype_given linktype then
    if is_linktype linktype extRef
    then Return (links ++ [Build_ExternalRef link extRef])
    else Return links
  else Return (links ++ [Build_ExternalRef link extRef]).

(** The [try] block. *)
Definition links_try (linktype : option ExternalFileReferenceType)
    (doc : Document) (modelPath : ModelPath) : result (list ExternalRef) :=
  transData <- ReadTransmissionData modelPath ;;
  match transData with
  | None => Raise AttributeError
  | Some transData =>
      externalReferences <- GetAllExternalFileReferenceIds transData ;;
      for_in externalReferences (links_body linktype doc transData) []
  end.

Definition get_links (linktype : option ExternalFileReferenceType)
    (doc : option Document) : result (list ExternalRef) :=
  let doc := doc_or_host HOST_APP_doc doc in
  match PathName doc with
  | Some (String c location') =>
      let location := String c location' in
      match ConvertUserVisiblePathToModelPath location with
      | None =>
          Raise (PyRevitException "Model is not saved. Can not read links.")
      | Some modelPath =>
          try_reraise (links_try linktype doc modelPath)
            (fun e => PyRevitException (links_error_message modelPath e))
      end
  | _ => Raise (PyRevitException "PathName is empty. Model is not saved.")
  end.

(** *** What the claim calls reading the transmission data *)

(** The external references of a model path, read one after the other:
    the transmission data, the ids in it, and the saved reference data of
    each id. *)
Fixpoint read_references (transData : TransmissionData)
    (ids : list ElementId) : result (list (ElementId * ExternalFileReference)) :=
  match ids with
  | [] => Return []
  | refId :: ids' =>
      extRef <- GetLastSavedReferenceData transData refId ;;
      rest <- read_references transData ids' ;;
      Return ((refId, extRef) :: rest)
  end.

Definition read_transmission_data (modelPath : ModelPath)
  : result (list (ElementId * ExternalFileReference)) :=
  transData <- ReadTransmissionData modelPath ;;
  match transData with
  | None => Raise AttributeError
  | Some transData =>
      externalReferences <- GetAllExternalFileReferenceIds transData ;;
      read_references transData externalReferences
  end.

(** The references [get_links] keeps: those of the link type when one is
    given, all of them otherwise. *)
Definition kept_references (linktype : option ExternalFileReferenceType)
    (refs : list (ElementId * ExternalFileReference))
  : list (ElementId * ExternalFileReference) :=
  if linktype_given linktype
  then filter (fun r => is_linktype linktype (snd r)) refs
  else refs.

Definition wrap_reference (doc : Document)
    (r : ElementId * ExternalFileReference) : ExternalRef :=
  Build_ExternalRef (GetElement doc (fst r)) (snd r).

Lemma links_loop (linktype : option ExternalFileReferenceType)
    (doc : Document) (transData : TransmissionData) (ids : list ElementId) :
  forall links,
    for_in ids (links_body linktype doc transData) links =
    (refs <- read_references transData ids ;;
     Return (links ++
             map (wrap_reference doc) (kept_references linktype refs))).
Proof.
  unfold kept_references.
  induction ids as [|refId ids IH]; intros links; simpl.
  - destruct (linktype_given linktype); simpl; now rewrite app_nil_r.
  - unfold links_body at 1.
    destruct (GetLastSavedReferenceData transData refId) as [extRef|e];
      simpl; [|reflexivity].
    destruct (linktype_given linktype) eqn:Eg.
    + destruct (is_linktype linktype extRef) eqn:Et; simpl; rewrite IH;
        destruct (read_references transData ids) as [rest|e]; simpl;
        rewrite ?Et; simpl; try reflexivity.
      now rewrite <- app_assoc.
    + simpl. rewrite IH.
      destruct (read_references transData ids) as [rest|e]; simpl;
        [|reflexivity].
      now rewrite <- app_assoc.
Qed.

Lemma links_try_reads (linktype : option ExternalFileReferenceType)
    (doc : Document) (modelPath : ModelPath) :
  links_try linktype doc modelPath =
  (refs <- read_transmission_data modelPath ;;
   Return (map (wrap_reference doc) (kept_references linktype refs))).
Proof.
  unfold links_try, read_transmission_data.
  destruct (ReadTransmissionData modelPath) as [[transData|]|e]; simpl;
    try reflexivity.
  destruct (GetAllExternalFileReferenceIds transData) as [ids|e]; simpl;
    [|reflexivity].
  apply links_loop.
Qed.


Lemma get_links_raise (linktype : option ExternalFileReferenceType)
    (doc : option Document) (e : exn) :
  get_links linktype doc = Raise e -> is_PyRevitException e = true.
Proof.
  unfold get_links, try_reraise.
  destruct (PathName (doc_or_host HOST_APP_doc doc)) as [[|c location']|];
    try (now intros [= <-]).
  destruct (ConvertUserVisiblePathToModelPath (String c location'))
    as [modelPath|]; [|now intros [= <-]].
  destruct (links_try linktype (doc_or_host HOST_APP_doc doc) modelPath);
    [discriminate|now intros [= <-]].
Qed.

Lemma get_links_raises (linktype : option ExternalFileReferenceType)
    (doc : option Document) :
  raises (get_links linktype doc) = true <->
  str_truthy (PathName (doc_or_host HOST_APP_doc doc)) = false \/
  exists location,
    PathName (doc_or_host HOST_APP_doc doc) = Some location /\
    (ConvertUserVisiblePathToModelPath location = None \/
     exists modelPath,
       ConvertUserVisiblePathToModelPath location = Some modelPath /\
       raises (read_transmission_data modelPath) = true).
Proof.
  unfold get_links.
  destruct (PathName (doc_or_host HOST_APP_doc doc)) as [[|c location']|]
    eqn:Ep; simpl.
  - split; auto.
  - destruct (ConvertUserVisiblePathToModelPath (String c location'))
      as [modelPath|] eqn:Ec.
    + rewrite links_try_reads.
      destruct (read_transmission_data modelPath) as [refs|e] eqn:Er; simpl.
      * split; [discriminate|].
        intros [H|(loc & [= <-] & [H|(mp & H & Hr)])]; try congruence.
        rewrite Ec in H. injection H as <-. rewrite Er in Hr. discriminate.
      * split; [|reflexivity]. intros _. right.
        exists (String c location'). split; [reflexivity|]. right.
        exists modelPath. now rewrite Er.
    + simpl. split; [|reflexivity]. intros _. right.
      exists (String c location'). auto.
  - split; auto.
Qed.

End Links.

(** ** Grids and grid points *)

(** [DB.SetComparisonResult] *)
Inductive SetComparisonResult : Type :=
| LeftEmpty
| RightEmpty
| BothEmpty
| Disjoint
| Overlap
| Subset
| Superset
| Equal.

Section Grids.

Variable Document : Type.
Variable Element : Type.
Variable Grid : Type.
Variable RevitLinkInstance : Type.
(** [DB.XYZ] *)
Variable XYZ : Type.
(** The number [DistanceTo] answers, with its [<]. *)
Variable distance : Type.
Variable distance_ltb : distance -> distance -> bool.

Variable HOST_APP_doc : Document.
(** Identity of two document objects, as the set of linked documents
    tells them apart. *)
Variable Document_eqb : Document -> Document -> bool.
(** [DB.FilteredElementCollector(d).OfCategory(OST_Grids)
       .WhereElementIsNotElementType().ToElements()] *)
Variable grids_of : Document -> list Grid.
(** [DB.FilteredElementCollector(d).OfClass(DB.RevitLinkInstance).ToElements()] *)
Variable link_instances : Document -> list RevitLinkInstance.
(** [x.GetLinkDocument()], null for a link that is not loaded *)
Variable GetLinkDocument : RevitLinkInstance -> option Document.
(** [grid1.Curve.Intersect(grid2.Curve, results)]: the comparison result
    and the array left in [results]. *)
Variable Curve_Intersect : Grid -> Grid -> SetComparisonResult * list XYZ.
(** [a.DistanceTo(b)] *)
Variable DistanceTo : XYZ -> XYZ -> distance.
(** [element.Location.Point] *)
Variable Location_Point : Element -> XYZ.

(** [db.XYZPoint], the wrapper of an [XYZ] that the dictionary of
    [get_gridpoints] is keyed by; [XYZPoint_eqb] is its [__eq__]. *)
Record XYZPoint : Type := { unwrap : XYZ }.
Variable XYZPoint_eqb : XYZPoint -> XYZPoint -> bool.

(** [GridPoint = namedtuple('GridPoint', ['point', 'grids'])] *)
Record GridPoint : Type := { point : XYZPoint; grids : list Grid }.

(** *** Linked documents and all grids *)

Definition option_eqb {A} (eqb : A -> A -> bool) (a b : option A) : bool :=
  match a, b with
  | Some x, Some y => eqb x y
  | None, None => true
  | _, _ => false
  end.

(** A set comprehension, kept in the order of first insertion. *)
Fixpoint set_of {A} (eqb : A -> A -> bool) (xs : list A) (s : list A)
  : list A :=
  match xs with
  | [] => s
  | x :: xs' => set_of eqb xs' (if existsb (eqb x) s then s else s ++ [x])
  end.

Definition get_all_linkeddocs (doc : option Document)
  : list (option Document) :=
  let linkinstances := link_instances (doc_or_host HOST_APP_doc doc) in
  set_of (option_eqb Document_eqb) (map GetLinkDocument linkinstances) [].

(** [get_all_grids] with [group_by_direction] off, which is how
    [get_gridpoints] calls it.  The linked documents are those of
    [HOST_APP.doc]: the call [get_all_linkeddocs()] passes no document. *)
Definition get_all_grids (include_linked_models : bool)
    (doc : option Document) : list Grid :=
  let doc := doc_or_host HOST_APP_doc doc in
  let target_docs :=
    Some doc :: (if include_linked_models then get_all_linkeddocs None
                 else []) in
  flat_map (fun tdoc => match tdoc with
                        | Some d => grids_of d
                        | None => []
                        end) target_docs.

(** *** The dictionary of intersections *)

(** A Python [dict] from points to lists of grids, in insertion order.
    Assigning to a key the dictionary holds (by [==]) keeps the key that
    is there and replaces its value. *)
Definition gints_dict : Type := list (XYZPoint * list Grid).

Fixpoint dict_set (k : XYZPoint) (v : list Grid) (d : gints_dict)
  : gints_dict :=
  match d with
  | [] => [(k, v)]
  | (k0, v0) :: d' =>
      if XYZPoint_eqb k0 k then (k0, v) :: d'
      else (k0, v0) :: dict_set k v d'
  end.

Fixpoint dict_get (k : XYZPoint) (d : gints_dict) : option (list Grid) :=
  match d with
  | [] => None
  | (k0, v0) :: d' => if XYZPoint_eqb k0 k then Some v0 else dict_get k d'
  end.

(** *** [get_gridpoints] *)

(** One pass of the inner loop.  The loop state is the dictionary and,
    beside it, the calls to [Intersect] made so far.  [results.get_Item(0)]
    on an empty array is an error of the host. *)
Definition gridpoints_inner (grid1 : Grid)
    (st : list (Grid * Grid) * gints_dict) (grid2 : Grid)
  : result (list (Grid * Grid) * gints_dict) :=
  let (intres, results) := Curve_Intersect grid1 grid2 in
  let calls := fst st ++ [(grid1, grid2)] in
  match intres with
  | Overlap =>
      match results with
      | xyz :: _ =>
          Return (calls, dict_set (Build_XYZPoint xyz) [grid1; grid2] (snd st))
      | [] => Raise (HostError "IntersectionResultArray.get_Item")
      end
  | _ => Return (calls, snd st)
  end.

Definition gridpoints_loop (source_grids : list Grid)
  : result (list (Grid * Grid) * gints_dict) :=
  for_in source_grids
    (fun st grid1 => for_in source_grids (gridpoints_inner grid1) st)
    ([], []).

(** [grids or get_all_grids(...)] *)
Definition source_grids_of (grids : option (list Grid))
    (include_linked_models : bool) (doc : option Document) : list Grid :=
  match grids with
  | Some (g :: gs) => g :: gs
  | _ => get_all_grids include_linked_models
           (Some (doc_or_host HOST_APP_doc doc))
  end.

Definition get_gridpoints (grids : option (list Grid))
    (include_linked_models : bool) (doc : option Document)
  : result (list GridPoint) :=
  st <- gridpoints_loop (source_grids_of grids include_linked_models doc) ;;
  Return (map (fun kv => Build_GridPoint (fst kv) (snd kv)) (snd st)).

(** *** [get_closest_gridpoint] *)

(** [gp.point.unwrap().DistanceTo(element.Location.Point)] *)
Definition distance_to (element : Element) (gp : GridPoint) : distance :=
  DistanceTo (unwrap (point gp)) (Location_Point element).

Definition closest_step (element : Element) (dist : distance * GridPoint)
    (gp : GridPoint) : distance * GridPoint :=
  let d := distance_to element gp in
  if distance_ltb d (fst dist) then (d, gp) else dist.

(** [gridpoints[0]] on the empty list is an [IndexError]. *)
Definition get_closest_gridpoint (element : Element)
    (gridpoints : list GridPoint) : result GridPoint :=
  match gridpoints with
  | [] => Raise IndexError
  | gp0 :: _ =>
      let dist := (distance_to element gp0, gp0) in
      Return (snd (fold_left (closest_step element) gridpoints dist))
  end.

(** *** The closest grid point *)

Section Closest.

(** [<] on distances orders them: no distance is below itself, and a
    distance below another is below, or the other above, any third.
    Doubles that are numbers are so ordered. *)
Hypothesis distance_ltb_irrefl : forall a, distance_ltb a a = false.
Hypothesis distance_ltb_trans :
  forall a b c, distance_ltb a b = true -> distance_ltb b c = true ->
                distance_ltb a c = true.
Hypothesis distance_ltb_cotrans :
  forall a b c, distance_ltb a b = true ->
                distance_ltb a c = true \/ distance_ltb c b = true.

Variable element : Element.

(** The loop keeps the entry at position [i] when nothing seen so far is
    nearer and everything before [i] is farther. *)
Definition best_so_far (seen : list GridPoint) (i : nat) (gp : GridPoint)
  : Prop :=
  nth_error seen i = Some gp /\
  (forall x, In x seen ->
     distance_ltb (distance_to element x) (distance_to element gp) = false) /\
  (forall j x, j < i -> nth_error seen j = Some x ->
     distance_ltb (distance_to element gp) (distance_to element x) = true).

Lemma best_so_far_keep (seen : list GridPoint) (i : nat) (gp x : GridPoint) :
  best_so_far seen i gp ->
  distance_ltb (distance_to element x) (distance_to element gp) = false ->
  best_so_far (seen ++ [x]) i gp.
Proof.
  intros (Hnth & Hmin & Hfirst) Hx.
  assert (Hi : i < List.length seen) by (apply nth_error_Some; congruence).
  repeat split.
  - rewrite nth_error_app1; assumption.
  - intros y Hy. apply in_app_or in Hy.
    destruct Hy as [Hy|[<-|[]]]; auto.
  - intros j y Hj Hy. rewrite nth_error_app1 in Hy by lia. eauto.
Qed.

Lemma best_so_far_replace (seen : list GridPoint) (i : nat)
    (gp x : GridPoint) :
  best_so_far seen i gp ->
  distance_ltb (distance_to element x) (distance_to element gp) = true ->
  best_so_far (seen ++ [x]) (List.length seen) x.
Proof.
  intros (Hnth & Hmin & Hfirst) Hx. repeat split.
  - rewrite nth_error_app2, Nat.sub_diag; [reflexivity|lia].
  - intros y Hy. apply in_app_or in Hy.
    destruct Hy as [Hy|[<-|[]]]; [|apply distance_ltb_irrefl].
    destruct (distance_ltb (distance_to element y) (distance_to element x))
      eqn:E; [|reflexivity].
    rewrite <- (Hmin y Hy). symmetry. eapply distance_ltb_trans; eassumption.
  - intros j y Hj Hy. rewrite nth_error_app1 in Hy by lia.
    destruct (distance_ltb_cotrans (distance_to element y) Hx)
      as [H|H]; [assumption|].
    apply nth_error_In in Hy. rewrite (Hmin y Hy) in H. discriminate.
Qed.

Lemma closest_loop (rest : list GridPoint) :
  forall seen i gp,
    best_so_far seen i gp ->
    exists i',
      best_so_far (seen ++ rest) i'
        (snd (fold_left (closest_step element) rest
                        (distance_to element gp, gp))).
Proof.
  induction rest as [|x rest IH]; intros seen i gp Hbest; simpl.
  - exists i. now rewrite app_nil_r.
  - unfold closest_step at 2. simpl.
    replace (seen ++ x :: rest) with ((seen ++ [x]) ++ rest)
      by (rewrite <- app_assoc; reflexivity).
    destruct (distance_ltb (distance_to element x) (distance_to element gp))
      eqn:E.
    + apply IH with (i := List.length seen).
      eapply best_so_far_replace; eassumption.
    + apply IH with (i := i). now apply best_so_far_keep.
Qed.

(** C9: [get_closest_gridpoint] needs a list that is not empty: on the
    empty list the first line indexes entry 0 and fails.  On every other
    list it returns an entry of the list than which no entry is nearer to
    the element's location point, and of the entries at that least
    distance the first one: every entry before it is farther. *)
Theorem get_closest_gridpoint_first_minimum :
  get_closest_gridpoint element [] = Raise IndexError /\
  forall gridpoints, gridpoints <> [] ->
    exists i gp,
      get_closest_gridpoint element gridpoints = Return gp /\
      nth_error gridpoints i = Some gp /\
      (forall x, In x gridpoints ->
         distance_ltb (distance_to element x) (distance_to element gp)
         = false) /\
      (forall j x, j < i -> nth_error gridpoints j = Some x ->
         distance_ltb (distance_to element gp) (distance_to element x)
         = true).
Proof.
  split; [reflexivity|].
  intros [|gp0 tl] Hne; [congruence|]. clear Hne.
  assert (H0 : best_so_far [gp0] 0 gp0).
  { repeat split.
    - intros x [<-|[]]. apply distance_ltb_irrefl.
    - intros j x Hj. lia. }
  destruct (closest_loop tl H0) as (i & Hnth & Hmin & Hfirst).
  assert (Hskip :
    fold_left (closest_step element) (gp0 :: tl) (distance_to element gp0, gp0)
    = fold_left (closest_step element) tl (distance_to element gp0, gp0)).
  { simpl. unfold closest_step at 2. simpl.
    now rewrite distance_ltb_irrefl. }
  exists i. eexists. split; [reflexivity|].
  cbv zeta. rewrite Hskip. auto.
Qed.

End Closest.

(** *** The intersections *)

(** The wrapped point at which two grids overlap, if they do. *)
Definition overlap_point (grid1 grid2 : Grid) : option XYZPoint :=
  match Curve_Intersect grid1 grid2 with
  | (Overlap, xyz :: _) => Some (Build_XYZPoint xyz)
  | _ => None
  end.

(** The pair overlaps at a point that [==] makes equal to [p]. *)
Definition overlaps_at (p : XYZPoint) (pr : Grid * Grid) : bool :=
  match overlap_point (fst pr) (snd pr) with
  | Some q => XYZPoint_eqb q p
  | None => false
  end.

(** What one intersection test leaves in the dictionary. *)
Definition record_pair (gints : gints_dict) (pr : Grid * Grid) : gints_dict :=
  match overlap_point (fst pr) (snd pr) with
  | Some q => dict_set q [fst pr; snd pr] gints
  | None => gints
  end.

(** The last pair of [pairs] that overlaps at [p]. *)
Fixpoint last_overlap_at (p : XYZPoint) (pairs : list (Grid * Grid))
  : option (Grid * Grid) :=
  match pairs with
  | [] => None
  | pr :: rest =>
      match last_overlap_at p rest with
      | Some later => Some later
      | None => if overlaps_at p pr then Some pr else None
      end
  end.

(** No two keys of the dictionary are equal. *)
Fixpoint distinct_keys (d : gints_dict) : Prop :=
  match d with
  | [] => True
  | (k0, _) :: d' => dict_get k0 d' = None /\ distinct_keys d'
  end.

(** *** Grids that do not cross *)

Lemma gridpoints_inner_without_overlap (grid1 : Grid) (gs : list Grid) :
  (forall grid2, In grid2 gs -> fst (Curve_Intersect grid1 grid2) <> Overlap) ->
  forall calls gints,
    for_in gs (gridpoints_inner grid1) (calls, gints) =
    Return (calls ++ map (fun grid2 => (grid1, grid2)) gs, gints).
Proof.
  induction gs as [|grid2 gs IH]; intros Hno calls gints; simpl.
  - now rewrite app_nil_r.
  - assert (Hstep : gridpoints_inner grid1 (calls, gints) grid2 =
                    Return (calls ++ [(grid1, grid2)], gints)).
    { unfold gridpoints_inner. simpl.
      pose proof (Hno grid2 (or_introl eq_refl)) as H.
      destruct (Curve_Intersect grid1 grid2) as [intres results].
      destruct intres; try reflexivity. now destruct H. }
    rewrite Hstep. simpl. rewrite IH, <- app_assoc; [reflexivity|].
    intros g Hg. apply Hno. now right.
Qed.

Lemma gridpoints_outer_without_overlap (gs gs1 : list Grid) :
  (forall grid1 grid2, In grid1 gs1 -> In grid2 gs ->
                       fst (Curve_Intersect grid1 grid2) <> Overlap) ->
  forall calls gints,
    for_in gs1 (fun st grid1 => for_in gs (gridpoints_inner grid1) st)
           (calls, gints) =
    Return (calls ++ list_prod gs1 gs, gints).
Proof.
  induction gs1 as [|grid1 gs1 IH]; intros Hno calls gints; simpl.
  - now rewrite app_nil_r.
  - rewrite gridpoints_inner_without_overlap
      by (intros g2 Hg2; apply Hno; [now left|assumption]).
    simpl. rewrite IH, <- app_assoc; [reflexivity|].
    intros g1 g2 H1 H2. apply Hno; [now right|assumption].
Qed.

(** When no two source grids overlap (and none overlaps itself),
    [get_gridpoints] returns the empty list, and looking for the closest
    grid point in what it returned fails with an index error. *)
Theorem get_gridpoints_without_overlap (grids : option (list Grid))
    (include_linked_models : bool) (doc : option Document)
    (element : Element) :
  (forall grid1 grid2,
     In grid1 (source_grids_of grids include_linked_models doc) ->
     In grid2 (source_grids_of grids include_linked_models doc) ->
     fst (Curve_Intersect grid1 grid2) <> Overlap) ->
  get_gridpoints grids include_linked_models doc = Return [] /\
  (gridpoints <- get_gridpoints grids include_linked_models doc ;;
   get_closest_gridpoint element gridpoints) = Raise IndexError.
Proof.
  intros Hno.
  assert (Hempty : get_gridpoints grids include_linked_models doc = Return []).
  { unfold get_gridpoints, gridpoints_loop.
    now rewrite gridpoints_outer_without_overlap. }
  split; [assumption|]. now rewrite Hempty.
Qed.

Section Intersections.

(** [==] on wrapped points is an equivalence. *)
Hypothesis XYZPoint_eqb_refl : forall a, XYZPoint_eqb a a = true.
Hypothesis XYZPoint_eqb_sym :
  forall a b, XYZPoint_eqb a b = XYZPoint_eqb b a.
Hypothesis XYZPoint_eqb_trans :
  forall a b c, XYZPoint_eqb a b = true -> XYZPoint_eqb b c = true ->
                XYZPoint_eqb a c = true.
(** The host leaves at least one intersection in [results] when it
    answers [Overlap]. *)
Hypothesis Overlap_has_result :
  forall g1 g2, fst (Curve_Intersect g1 g2) = Overlap ->
                snd (Curve_Intersect g1 g2) <> [].

Lemma XYZPoint_eqb_congr (a b c : XYZPoint) :
  XYZPoint_eqb a b = true -> XYZPoint_eqb a c = XYZPoint_eqb b c.
Proof.
  intros Hab.
  destruct (XYZPoint_eqb b c) eqn:Ebc.
  - eapply XYZPoint_eqb_trans; eassumption.
  - destruct (XYZPoint_eqb a c) eqn:Eac; [|reflexivity].
    rewrite <- Ebc. symmetry. apply XYZPoint_eqb_trans with a; [|assumption].
    now rewrite XYZPoint_eqb_sym.
Qed.

Lemma dict_get_set (p k : XYZPoint) (v : list Grid) (d : gints_dict) :
  dict_get p (dict_set k v d) =
  if XYZPoint_eqb k p then Some v else dict_get p d.
Proof.
  induction d as [|[k0 v0] d IH]; simpl; [reflexivity|].
  destruct (XYZPoint_eqb k0 k) eqn:E0; simpl.
  - rewrite (@XYZPoint_eqb_congr _ _ p E0).
    now destruct (XYZPoint_eqb k p).
  - rewrite IH. destruct (XYZPoint_eqb k0 p) eqn:E1; [|reflexivity].
    destruct (XYZPoint_eqb k p) eqn:E2; [|reflexivity].
    assert (XYZPoint_eqb k0 k = true); [|congruence].
    apply XYZPoint_eqb_trans with p; [assumption|].
    now rewrite XYZPoint_eqb_sym.
Qed.

Lemma distinct_keys_set (k : XYZPoint) (v : list Grid) (d : gints_dict) :
  distinct_keys d -> distinct_keys (dict_set k v d).
Proof.
  induction d as [|[k0 v0] d IH]; simpl; [auto|].
  intros [Hk0 Hd]. destruct (XYZPoint_eqb k0 k) eqn:E0; simpl; [auto|].
  split; [|auto]. rewrite dict_get_set, XYZPoint_eqb_sym, E0. exact Hk0.
Qed.

Lemma dict_get_none (p k : XYZPoint) (v : list Grid) (d : gints_dict) :
  dict_get p d = None -> In (k, v) d -> XYZPoint_eqb k p = false.
Proof.
  induction d as [|[k0 v0] d IH]; simpl; [tauto|].
  destruct (XYZPoint_eqb k0 p) eqn:E; [discriminate|].
  intros Hd [[= <- <-]|Hin]; auto.
Qed.

Lemma dict_get_in (p : XYZPoint) (v : list Grid) (d : gints_dict) :
  dict_get p d = Some v ->
  exists k, In (k, v) d /\ XYZPoint_eqb k p = true.
Proof.
  induction d as [|[k0 v0] d IH]; simpl; [discriminate|].
  destruct (XYZPoint_eqb k0 p) eqn:E.
  - intros [= <-]. exists k0. auto.
  - intros H. destruct (IH H) as (k & Hin & Hk). eauto.
Qed.

Lemma distinct_keys_get (p k : XYZPoint) (v : list Grid) (d : gints_dict) :
  distinct_keys d -> In (k, v) d -> XYZPoint_eqb k p = true ->
  dict_get p d = Some v.
Proof.
  induction d as [|[k0 v0] d IH]; simpl; [tauto|].
  intros [Hk0 Hd] [[= -> ->]|Hin] Hk.
  - now rewrite Hk.
  - destruct (XYZPoint_eqb k0 p) eqn:E; [|auto].
    pose proof (@dict_get_none _ _ _ _ Hk0 Hin) as Hne.
    assert (XYZPoint_eqb k k0 = true); [|congruence].
    apply XYZPoint_eqb_trans with p; [assumption|].
    now rewrite XYZPoint_eqb_sym.
Qed.

Lemma distinct_keys_unique (k1 k2 : XYZPoint) (v1 v2 : list Grid)
    (d : gints_dict) :
  distinct_keys d -> In (k1, v1) d -> In (k2, v2) d ->
  XYZPoint_eqb k1 k2 = true -> (k1, v1) = (k2, v2).
Proof.
  induction d as [|[k0 v0] d IH]; simpl; [tauto|].
  intros [Hk0 Hd] [E1|H1] [E2|H2] Hk; try congruence; [| |auto].
  - injection E1 as -> ->.
    pose proof (@dict_get_none _ _ _ _ Hk0 H2) as Hne.
    rewrite XYZPoint_eqb_sym in Hk. congruence.
  - injection E2 as -> ->.
    pose proof (@dict_get_none _ _ _ _ Hk0 H1) as Hne. congruence.
Qed.

Lemma record_pairs_get (p : XYZPoint) (pairs : list (Grid * Grid)) :
  forall d,
    dict_get p (fold_left record_pair pairs d) =
    match last_overlap_at p pairs with
    | Some pr => Some [fst pr; snd pr]
    | None => dict_get p d
    end.
Proof.
  induction pairs as [|pr rest IH]; intros d; simpl; [reflexivity|].
  rewrite IH. destruct (last_overlap_at p rest); [reflexivity|].
  unfold record_pair, overlaps_at.
  destruct (overlap_point (fst pr) (snd pr)) as [q|]; [|reflexivity].
  rewrite dict_get_set. now destruct (XYZPoint_eqb q p).
Qed.

Lemma record_pairs_distinct (pairs : list (Grid * Grid)) :
  forall d, distinct_keys d -> distinct_keys (fold_left record_pair pairs d).
Proof.
  induction pairs as [|pr rest IH]; intros d Hd; simpl; [assumption|].
  apply IH. unfold record_pair.
  destruct (overlap_point (fst pr) (snd pr)); [|assumption].
  now apply distinct_keys_set.
Qed.

Lemma last_overlap_at_split (p : XYZPoint) (pairs : list (Grid * Grid))
    (pr : Grid * Grid) :
  last_overlap_at p pairs = Some pr ->
  exists before after,
    pairs = before ++ pr :: after /\
    overlaps_at p pr = true /\
    forall later, In later after -> overlaps_at p later = false.
Proof.
  induction pairs as [|hd rest IH]; simpl; [discriminate|].
  destruct (last_overlap_at p rest) as [later|] eqn:E.
  - intros [= <-]. destruct (IH eq_refl) as (b & a & -> & Hp & Ha).
    exists (hd :: b), a. auto.
  - destruct (overlaps_at p hd) eqn:Eh; [|discriminate].
    intros [= <-]. exists [], rest. repeat split; [assumption|].
    clear IH. induction rest as [|x rest IH]; simpl; [tauto|].
    simpl in E. destruct (last_overlap_at p rest); [discriminate|].
    destruct (overlaps_at p x) eqn:Ex; [discriminate|].
    intros later [<-|Hl]; auto.
Qed.

Lemma last_overlap_at_some (p : XYZPoint) (pairs : list (Grid * Grid))
    (pr : Grid * Grid) :
  In pr pairs -> overlaps_at p pr = true ->
  exists last, last_overlap_at p pairs = Some last.
Proof.
  induction pairs as [|hd rest IH]; simpl; [tauto|].
  intros [->|Hin] Hp.
  - destruct (last_overlap_at p rest); [eauto|]. rewrite Hp. eauto.
  - destruct (IH Hin Hp) as (last & ->). eauto.
Qed.

Lemma gridpoints_inner_loop (grid1 : Grid) (gs : list Grid) :
  forall calls gints,
    for_in gs (gridpoints_inner grid1) (calls, gints) =
    Return (calls ++ map (fun grid2 => (grid1, grid2)) gs,
            fold_left record_pair (map (fun grid2 => (grid1, grid2)) gs)
                      gints).
Proof.
  induction gs as [|grid2 gs IH]; intros calls gints; simpl.
  - now rewrite app_nil_r.
  - assert (Hstep : gridpoints_inner grid1 (calls, gints) grid2 =
                    Return (calls ++ [(grid1, grid2)],
                            record_pair gints (grid1, grid2))).
    { unfold gridpoints_inner, record_pair, overlap_point. simpl.
      pose proof (Overlap_has_result grid1 grid2) as Hres.
      destruct (Curve_Intersect grid1 grid2) as [intres results].
      destruct intres; try reflexivity.
      destruct results; [|reflexivity]. now destruct Hres. }
    rewrite Hstep. simpl. rewrite IH, <- app_assoc. reflexivity.
Qed.

Lemma gridpoints_outer_loop (gs : list Grid) (gs1 : list Grid) :
  forall calls gints,
    for_in gs1 (fun st grid1 => for_in gs (gridpoints_inner grid1) st)
           (calls, gints) =
    Return (calls ++ list_prod gs1 gs,
            fold_left record_pair (list_prod gs1 gs) gints).
Proof.
  induction gs1 as [|grid1 gs1 IH]; intros calls gints; simpl.
  - now rewrite app_nil_r.
  - rewrite gridpoints_inner_loop. simpl.
    rewrite IH, <- app_assoc, fold_left_app. reflexivity.
Qed.

(** C1: [get_gridpoints] intersects the source grids pairwise.  For a
    list of n source grids it calls [Intersect] on every ordered pair,
    n * n calls in the order of the two loops, a grid with itself and both
    orders of two grids among them.  Every pair whose curves overlap has
    one [GridPoint] in the result: its point is (equal to) the point of
    intersection, no other entry has that point, and its grids are the
    last pair, in the order of the calls, that overlaps at that point.
    Every entry of the result is such a one. *)
Theorem get_gridpoints_pairwise_intersections (source_grids : list Grid) :
  let pairs := list_prod source_grids source_grids in
  exists gints,
    gridpoints_loop source_grids = Return (pairs, gints) /\
    List.length pairs = List.length source_grids * List.length source_grids /\
    (forall grid1 grid2,
       In grid1 source_grids -> In grid2 source_grids ->
       In (grid1, grid2) pairs) /\
    let gridpoints :=
      map (fun kv => Build_GridPoint (fst kv) (snd kv)) gints in
    (forall grids include_linked_models doc,
       source_grids_of grids include_linked_models doc = source_grids ->
       get_gridpoints grids include_linked_models doc = Return gridpoints) /\
    (forall pr q,
       In pr pairs -> overlap_point (fst pr) (snd pr) = Some q ->
       exists gp before last after,
         In gp gridpoints /\
         XYZPoint_eqb (point gp) q = true /\
         pairs = before ++ last :: after /\
         overlaps_at q last = true /\
         (forall later, In later after -> overlaps_at q later = false) /\
         grids gp = [fst last; snd last] /\
         (forall gp', In gp' gridpoints ->
            XYZPoint_eqb (point gp') q = true -> gp' = gp)) /\
    (forall gp,
       In gp gridpoints ->
       exists pr, In pr pairs /\ overlaps_at (point gp) pr = true /\
                  grids gp = [fst pr; snd pr]).
Proof.
  intros pairs.
  assert (Hloop : gridpoints_loop source_grids =
                  Return (pairs, fold_left record_pair pairs [])).
  { unfold gridpoints_loop. now rewrite gridpoints_outer_loop. }
  set (gints := fold_left record_pair pairs []) in *.
  assert (Hdistinct : distinct_keys gints)
    by (apply record_pairs_distinct; exact I).
  exists gints. split; [exact Hloop|].
  split; [apply length_prod|].
  split; [intros g1 g2 H1 H2; now apply in_prod|].
  cbv zeta. split; [|split].
  - intros grids0 incl doc Hsrc. unfold get_gridpoints.
    now rewrite Hsrc, Hloop.
  - intros pr q Hpr Hq.
    assert (Hat : overlaps_at q pr = true)
      by (unfold overlaps_at; now rewrite Hq).
    destruct (@last_overlap_at_some _ _ _ Hpr Hat) as (last & Hlast).
    destruct (@last_overlap_at_split _ _ _ Hlast)
      as (before & after & Hsplit & Hov & Hafter).
    pose proof (record_pairs_get q pairs []) as Hget.
    fold gints in Hget. rewrite Hlast in Hget.
    destruct (@dict_get_in _ _ _ Hget) as (k & Hin & Hk).
    exists (Build_GridPoint k [fst last; snd last]), before, last, after.
    repeat split; try assumption.
    + apply in_map_iff. exists (k, [fst last; snd last]). auto.
    + intros gp' Hgp' Heq. apply in_map_iff in Hgp'.
      destruct Hgp' as ([k' v'] & <- & Hin'). simpl in Heq |- *.
      assert (Hkk : XYZPoint_eqb k' k = true).
      { apply XYZPoint_eqb_trans with q; [assumption|].
        now rewrite XYZPoint_eqb_sym. }
      now injection (@distinct_keys_unique _ _ _ _ _ Hdistinct Hin' Hin Hkk)
        as -> ->.
  - intros gp Hgp. apply in_map_iff in Hgp.
    destruct Hgp as ([k v] & <- & Hin). simpl.
    pose proof (@distinct_keys_get k _ _ _ Hdistinct Hin (XYZPoint_eqb_refl k))
      as Hget.
    unfold gints in Hget. rewrite record_pairs_get in Hget.
    destruct (last_overlap_at k pairs) as [pr|] eqn:Hlast; [|discriminate].
    injection Hget as <-.
    destruct (@last_overlap_at_split _ _ _ Hlast)
      as (before & after & Hsplit & Hov & _).
    exists pr. repeat split; [|assumption].
    rewrite Hsplit. apply in_or_app. right. now left.
Qed.

(** *** Grids by direction *)

(** [x.Curve.Direction] *)
Variable Curve_Direction : Grid -> XYZ.

(** [db.XYZPoint(x.Curve.Direction)] *)
Definition direction_of (x : Grid) : XYZPoint :=
  Build_XYZPoint (Curve_Direction x).

(** [get_all_grids] with [group_by_direction] on: the dictionary from
    each direction to the grids of that direction. *)
Definition get_all_grids_by_direction (include_linked_models : bool)
    (doc : option Document) : gints_dict :=
  let all_grids := get_all_grids include_linked_models doc in
  let direcs := set_of XYZPoint_eqb (map direction_of all_grids) [] in
  fold_left
    (fun grouped_grids direc =>
       dict_set direc
         (filter (fun x => XYZPoint_eqb direc (direction_of x)) all_grids)
         grouped_grids)
    direcs [].

(** A set of points as the comprehension builds it. *)
Inductive point_set : list XYZPoint -> Prop :=
| point_set_empty : point_set []
| point_set_add (s : list XYZPoint) (x : XYZPoint) :
    point_set s -> existsb (XYZPoint_eqb x) s = false -> point_set (s ++ [x]).

Lemma set_of_point_set (xs : list XYZPoint) :
  forall s, point_set s -> point_set (set_of XYZPoint_eqb xs s).
Proof.
  induction xs as [|x xs IH]; intros s Hs; simpl; [assumption|].
  apply IH. destruct (existsb (XYZPoint_eqb x) s) eqn:E; [assumption|].
  now constructor.
Qed.

Lemma set_of_keeps (xs : list XYZPoint) :
  forall s x, existsb (XYZPoint_eqb x) s = true ->
              existsb (XYZPoint_eqb x) (set_of XYZPoint_eqb xs s) = true.
Proof.
  induction xs as [|y xs IH]; intros s x Hx; simpl; [assumption|].
  apply IH. destruct (existsb (XYZPoint_eqb y) s); [assumption|].
  rewrite existsb_app, Hx. reflexivity.
Qed.

Lemma set_of_covers (xs : list XYZPoint) :
  forall s x, In x xs ->
              existsb (XYZPoint_eqb x) (set_of XYZPoint_eqb xs s) = true.
Proof.
  induction xs as [|y xs IH]; intros s x Hx; simpl in *; [tauto|].
  destruct Hx as [<-|Hx]; [|now apply IH].
  apply set_of_keeps.
  destruct (existsb (XYZPoint_eqb y) s) eqn:E; [assumption|].
  rewrite existsb_app. simpl. rewrite XYZPoint_eqb_refl.
  now rewrite orb_true_r.
Qed.

Lemma set_of_from (xs : list XYZPoint) :
  forall s x, In x (set_of XYZPoint_eqb xs s) -> In x s \/ In x xs.
Proof.
  induction xs as [|y xs IH]; intros s x Hx; simpl in *; [now left|].
  apply IH in Hx. destruct Hx as [Hx|Hx]; [|auto].
  destruct (existsb (XYZPoint_eqb y) s); [auto|].
  apply in_app_or in Hx. destruct Hx as [Hx|[<-|[]]]; auto.
Qed.

Lemma dict_set_fresh (k : XYZPoint) (v : list Grid) (d : gints_dict) :
  existsb (XYZPoint_eqb k) (map fst d) = false ->
  dict_set k v d = d ++ [(k, v)].
Proof.
  induction d as [|[k0 v0] d IH]; simpl; [reflexivity|].
  rewrite orb_false_iff. intros [Hk Hd].
  rewrite XYZPoint_eqb_sym, Hk. now rewrite IH.
Qed.

Lemma group_by_keys (f : XYZPoint -> list Grid) (keys : list XYZPoint) :
  point_set keys ->
  fold_left (fun d k => dict_set k (f k) d) keys [] =
  map (fun k => (k, f k)) keys.
Proof.
  induction 1 as [|s x Hs IH Hx]; [reflexivity|].
  rewrite fold_left_app, IH. simpl. rewrite dict_set_fresh.
  - now rewrite map_app.
  - rewrite map_map. simpl. now rewrite map_id.
Qed.

Lemma group_by_keys_distinct (f : XYZPoint -> list Grid)
    (keys : list XYZPoint) :
  forall d, distinct_keys d ->
            distinct_keys (fold_left (fun d k => dict_set k (f k) d) keys d).
Proof.
  induction keys as [|k keys IH]; intros d Hd; simpl; [assumption|].
  apply IH. now apply distinct_keys_set.
Qed.

(** Grouping by direction sorts every grid into one group.  The keys of
    the dictionary are directions no two of which are equal; every grid
    is in the group found under its direction; every group is, in their
    order, the grids of the key's direction, and none is empty; and no
    grid is in two groups. *)
Theorem get_all_grids_by_direction_partitions
    (include_linked_models : bool) (doc : option Document) :
  let all_grids := get_all_grids include_linked_models doc in
  let grouped_grids := get_all_grids_by_direction include_linked_models doc in
  distinct_keys grouped_grids /\
  (forall grid, In grid all_grids ->
     exists group,
       dict_get (direction_of grid) grouped_grids = Some group /\
       In grid group) /\
  (forall direc group, In (direc, group) grouped_grids ->
     group <> [] /\
     group = filter (fun x => XYZPoint_eqb direc (direction_of x)) all_grids) /\
  (forall grid direc1 group1 direc2 group2,
     In (direc1, group1) grouped_grids ->
     In (direc2, group2) grouped_grids ->
     In grid group1 -> In grid group2 ->
     (direc1, group1) = (direc2, group2)).
Proof.
  intros all_grids grouped_grids.
  set (direcs := set_of XYZPoint_eqb (map direction_of all_grids) []).
  set (group_of := fun direc =>
         filter (fun x => XYZPoint_eqb direc (direction_of x)) all_grids).
  assert (Hset : point_set direcs)
    by (apply set_of_point_set; constructor).
  assert (Hmap : grouped_grids = map (fun k => (k, group_of k)) direcs).
  { unfold grouped_grids, get_all_grids_by_direction.
    fold all_grids. fold direcs. now apply (group_by_keys group_of). }
  assert (Hdistinct : distinct_keys grouped_grids).
  { unfold grouped_grids, get_all_grids_by_direction.
    fold all_grids. fold direcs.
    apply (group_by_keys_distinct group_of). exact I. }
  assert (Hgroup : forall direc group, In (direc, group) grouped_grids ->
            In direc direcs /\ group = group_of direc).
  { intros direc group Hin. rewrite Hmap in Hin. apply in_map_iff in Hin.
    destruct Hin as (k & [= <- <-] & Hk). auto. }
  split; [assumption|]. split; [|split].
  - intros grid Hgrid.
    assert (Hcov : existsb (XYZPoint_eqb (direction_of grid)) direcs = true)
      by (apply set_of_covers; now apply in_map).
    apply existsb_exists in Hcov. destruct Hcov as (k & Hk & Heq).
    rewrite XYZPoint_eqb_sym in Heq.
    exists (group_of k). split.
    + apply (@distinct_keys_get (direction_of grid) k); try assumption.
      rewrite Hmap. apply in_map_iff. now exists k.
    + apply filter_In. auto.
  - intros direc group Hin. destruct (Hgroup _ _ Hin) as [Hd ->].
    split; [|reflexivity].
    apply set_of_from in Hd. destruct Hd as [Hd|Hd]; [destruct Hd|].
    apply in_map_iff in Hd. destruct Hd as (grid & <- & Hgrid).
    intros Hempty.
    assert (Hg : In grid (group_of (direction_of grid))).
    { apply filter_In. split; [assumption|apply XYZPoint_eqb_refl]. }
    rewrite Hempty in Hg. destruct Hg.
  - intros grid d1 g1 d2 g2 H1 H2 Hg1 Hg2.
    destruct (Hgroup _ _ H1) as [_ ->]. destruct (Hgroup _ _ H2) as [_ ->].
    apply filter_In in Hg1. apply filter_In in Hg2.
    apply (@distinct_keys_unique d1 d2 _ _ grouped_grids); try assumption.
    apply XYZPoint_eqb_trans with (direction_of grid); [tauto|].
    rewrite XYZPoint_eqb_sym. tauto.
Qed.

End Intersections.

End Grids.

(** ** Parameter filters *)

(** [DB.ParameterValueProvider(id)] *)
Record ParameterValueProvider : Type := { provider_parameter : ElementId }.

(** [DB.FilterStringRule(provider, DB.FilterStringEquals(), value, True)]:
    the evaluator is always [FilterStringEquals]. *)
Record FilterStringRule : Type := {
  rule_provider : ParameterValueProvider;
  rule_string : string;
  rule_case_sensitive : bool
}.

(** [DB.ElementParameterFilter(List[DB.FilterRule](rules))] *)
Record ElementParameterFilter : Type := {
  filter_rules : list FilterStringRule
}.

Section Filters.

(** [DB.BuiltInParameter] and [DB.ElementId(bip)] *)
Variable BuiltInParameter : Type.
Variable ElementId_of : BuiltInParameter -> ElementId.

(** The rule the loop builds for one item of the dictionary. *)
Definition stringequals_rule (item : BuiltInParameter * string)
  : FilterStringRule :=
  let bip_id := ElementId_of (fst item) in
  let bip_valueprovider := Build_ParameterValueProvider bip_id in
  Build_FilterStringRule bip_valueprovider (snd item) true.

(** The argument is the dictionary by its items.  An empty [filters] is
    false, and the function then raises. *)
Definition get_biparam_stringequals_filter
    (bip_paramvalue_dict : list (BuiltInParameter * string))
  : result ElementParameterFilter :=
  let filters :=
    fold_left (fun filters item => filters ++ [stringequals_rule item])
              bip_paramvalue_dict [] in
  match filters with
  | [] => Raise (PyRevitException "Error creating filters.")
  | _ :: _ => Return (Build_ElementParameterFilter filters)
  end.

Lemma stringequals_rules (items : list (BuiltInParameter * string)) :
  forall filters,
    fold_left (fun filters item => filters ++ [stringequals_rule item])
              items filters
    = filters ++ map stringequals_rule items.
Proof.
  induction items as [|item items IH]; intros filters; simpl.
  - now rewrite app_nil_r.
  - now rewrite IH, <- app_assoc.
Qed.

Lemma get_biparam_stringequals_filter_cases
    (bip_paramvalue_dict : list (BuiltInParameter * string)) :
  (bip_paramvalue_dict = [] /\
   get_biparam_stringequals_filter bip_paramvalue_dict =
     Raise (PyRevitException "Error creating filters.")) \/
  (bip_paramvalue_dict <> [] /\
   get_biparam_stringequals_filter bip_paramvalue_dict =
     Return (Build_ElementParameterFilter
               (map stringequals_rule bip_paramvalue_dict))).
Proof.
  unfold get_biparam_stringequals_filter. rewrite stringequals_rules.
  destruct bip_paramvalue_dict as [|item items]; simpl.
  - now left.
  - right. split; [discriminate|reflexivity].
Qed.

End Filters.

(** ** Category sets *)

Section CategorySets.

Variable Document : Type.
Variable Category : Type.
Variable BuiltInCategory : Type.
(** [DB.CategorySet]: the empty set and [cat_set.Insert(cat)], whose
    boolean answer the module drops. *)
Variable CategorySet : Type.
Variable CategorySet_empty : CategorySet.
Variable CategorySet_Insert : CategorySet -> Category -> CategorySet.
(** [doc.Settings.Categories], and [get_Item] on it *)
Variable Settings_Categories : Document -> list Category.
Variable Categories_get_Item : Document -> BuiltInCategory -> Category.
(** [cat.AllowsBoundParameters] *)
Variable AllowsBoundParameters : Category -> bool.













End CategorySets.

(** ** Categories *)

Section Categories.

Variable Document : Type.
Variable Element : Type.
Variable Category : Type.
Variable BuiltInCategory : Type.
Variable ViewSchedule : Type.

Variable HOST_APP_doc : Document.
(** [doc.Settings.Categories] and [cat.SubCategories] *)
Variable Settings_Categories : Document -> list Category.
Variable SubCategories : Category -> list Category.
(** [cat.Name] and [cat.Id] *)
Variable Category_Name : Category -> string.
Variable Category_Id : Category -> ElementId.
(** [int(bicat)], [DB.BuiltInCategory.GetValues(DB.BuiltInCategory)] and
    [==] on two members *)
Variable BuiltInCategory_int : BuiltInCategory -> Z.
Variable BuiltInCategory_values : list BuiltInCategory.
Variable BuiltInCategory_eqb : BuiltInCategory -> BuiltInCategory -> bool.
(** [x.Category], null for an element without one *)
Variable Element_Category : Element -> option Category.
(** The collector of [get_elements_by_category]: the non-type elements of
    a document that pass the or-filter of the category filters *)
Variable elements_of_categories :
  Document -> list BuiltInCategory -> result (list Element).
(** [DB.FilteredElementCollector(d).OfClass(DB.ViewSchedule)
       .WhereElementIsNotElementType().ToElements()] *)
Variable schedules_of : Document -> list ViewSchedule.
(** [x.Definition.CategoryId] *)
Variable Definition_CategoryId : ViewSchedule -> ElementId.

Definition get_all_schedules (doc : option Document) : list ViewSchedule :=
  schedules_of (doc_or_host HOST_APP_doc doc).

(** The categories of the document, then the subcategories of each. *)
Definition get_doc_categories (doc : option Document) : list Category :=
  let cats := Settings_Categories (doc_or_host HOST_APP_doc doc) in
  fold_left (fun all_cats cat => all_cats ++ SubCategories cat) cats cats.

(** The argument of [get_category], by the [isinstance] tests in their
    order. *)
Inductive cat_name_or_builtin : Type :=
| CategoryName (name : string)
| CategoryBuiltIn (bicat : BuiltInCategory)
| CategoryItself (cat : Category)
| CategoryOther.

(** [ElementId == ElementId] and [IntegerValue == int(...)]. *)
Definition ElementId_eqb (a b : ElementId) : bool :=
  Z.eqb (IntegerValue a) (IntegerValue b).

(** [get_category] takes a document and does not use it: the categories
    come from [get_doc_categories()], those of [HOST_APP.doc]. *)
Definition get_category (arg : cat_name_or_builtin) (doc : option Document)
  : option Category :=
  let all_cats := get_doc_categories None in
  match arg with
  | CategoryName name =>
      find (fun cat => String.eqb (Category_Name cat) name) all_cats
  | CategoryBuiltIn bicat =>
      find (fun cat => Z.eqb (IntegerValue (Category_Id cat))
                             (BuiltInCategory_int bicat)) all_cats
  | CategoryItself cat => Some cat
  | CategoryOther => None
  end.

(** The argument of [get_builtincategory]. *)
Inductive cat_name_or_id : Type :=
| ByName (name : string)
| ById (id : ElementId)
| ByOther.

(** [cat_id] stays [None] when nothing is found; [if cat_id:] is false
    for [None] and for the number 0. *)
Definition get_builtincategory (arg : cat_name_or_id) (doc : option Document)
  : option BuiltInCategory :=
  let cat_id :=
    match arg with
    | ByName name =>
        match get_category (CategoryName name) None with
        | Some cat => Some (IntegerValue (Category_Id cat))
        | None => None
        end
    | ById id => Some (IntegerValue id)
    | ByOther => None
    end in
  match cat_id with
  | Some cat_id =>
      if Z.eqb cat_id 0 then None
      else find (fun bicat => Z.eqb (BuiltInCategory_int bicat) cat_id)
                BuiltInCategory_values
  | None => None
  end.




(** [cat.Id] is read once per schedule, and fails when [get_category]
    found nothing. *)
Definition get_category_schedules (arg : cat_name_or_builtin)
    (doc : option Document) : result (list ViewSchedule) :=
  let doc := doc_or_host HOST_APP_doc doc in
  let cat := get_category arg None in
  let scheds := get_all_schedules (Some doc) in
  for_in scheds
    (fun found x =>
       match cat with
       | None => Raise AttributeError
       | Some cat =>
           if ElementId_eqb (Definition_CategoryId x) (Category_Id cat)
           then Return (found ++ [x])
           else Return found
       end)
    [].

(** *** Looking categories up *)





(** From a built-in category to its id and back: for a member of the
    enumeration whose number is not 0 and is the number of no other
    member, [get_builtincategory] on the element id of that number
    answers the member. *)
Theorem get_builtincategory_of_its_id (bicat : BuiltInCategory)
    (doc : option Document) :
  In bicat BuiltInCategory_values ->
  BuiltInCategory_int bicat <> 0%Z ->
  (forall other, In other BuiltInCategory_values ->
                 BuiltInCategory_int other = BuiltInCategory_int bicat ->
                 other = bicat) ->
  get_builtincategory (ById (Build_ElementId (BuiltInCategory_int bicat))) doc
  = Some bicat.
Proof.
  intros Hin Hnz Huniq. unfold get_builtincategory. simpl.
  destruct (Z.eqb_spec (BuiltInCategory_int bicat) 0) as [H0|_];
    [contradiction|].
  destruct (find _ BuiltInCategory_values) as [found|] eqn:E.
  - apply find_some in E. destruct E as [Hf Heq].
    apply Z.eqb_eq in Heq. f_equal. now apply Huniq.
  - apply (find_none _ _ E) in Hin. simpl in Hin.
    rewrite Z.eqb_refl in Hin. discriminate.
Qed.

(** What [get_builtincategory] answers is a member of the enumeration
    with the number looked for, which is never 0: the id given, or the id
    of the category [get_category] finds under the name.  An id of 0, and
    a name no category has, give [None]. *)
Theorem get_builtincategory_answers_number (arg : cat_name_or_id)
    (doc : option Document) :
  (forall bicat, get_builtincategory arg doc = Some bicat ->
     In bicat BuiltInCategory_values /\
     BuiltInCategory_int bicat <> 0%Z /\
     match arg with
     | ById id => BuiltInCategory_int bicat = IntegerValue id
     | ByName name =>
         exists cat,
           get_category (CategoryName name) None = Some cat /\
           BuiltInCategory_int bicat = IntegerValue (Category_Id cat)
     | ByOther => False
     end) /\
  (forall id, arg = ById id -> IntegerValue id = 0%Z ->
     get_builtincategory arg doc = None) /\
  (forall name, arg = ByName name ->
     get_category (CategoryName name) None = None ->
     get_builtincategory arg doc = None).
Proof.
  split; [|split].
  - intros bicat. unfold get_builtincategory.
    destruct arg as [name|id|]; [| |discriminate].
    + destruct (get_category (CategoryName name) None) as [cat|];
        [|discriminate].
      destruct (Z.eqb_spec (IntegerValue (Category_Id cat)) 0) as [|Hnz];
        [discriminate|].
      intros E. apply find_some in E. destruct E as [Hin Heq].
      apply Z.eqb_eq in Heq. repeat split; [assumption|congruence|].
      exists cat. auto.
    + destruct (Z.eqb_spec (IntegerValue id) 0) as [|Hnz]; [discriminate|].
      intros E. apply find_some in E. destruct E as [Hin Heq].
      apply Z.eqb_eq in Heq. repeat split; [assumption|congruence|assumption].
  - intros id -> H0. unfold get_builtincategory. now rewrite H0.
  - intros name -> Hnone. unfold get_builtincategory. now rewrite Hnone.
Qed.

(** *** Elements by category *)




(** *** Schedules of a category *)

Lemma schedules_of_category_loop (cat : Category)
    (scheds : list ViewSchedule) :
  forall found,
    for_in scheds
      (fun found x =>
         if ElementId_eqb (Definition_CategoryId x) (Category_Id cat)
         then Return (found ++ [x])
         else Return found)
      found
    = Return (found ++
              filter (fun x => ElementId_eqb (Definition_CategoryId x)
                                             (Category_Id cat)) scheds).
Proof.
  induction scheds as [|x xs IH]; intros found; simpl.
  - now rewrite app_nil_r.
  - destruct (ElementId_eqb (Definition_CategoryId x) (Category_Id cat));
      simpl; rewrite IH; [now rewrite <- app_assoc|reflexivity].
Qed.

(** [get_category_schedules] narrows the schedules of the document to
    those of the category [get_category] finds.  When it finds none, the
    function fails with an attribute error, unless the document has no
    schedule at all: then nothing reads the missing category and the
    answer is the empty list. *)
Theorem get_category_schedules_missing_category
    (arg : cat_name_or_builtin) (doc : option Document) :
  (forall cat, get_category arg None = Some cat ->
     get_category_schedules arg doc =
     Return (filter (fun x => ElementId_eqb (Definition_CategoryId x)
                                            (Category_Id cat))
                    (get_all_schedules doc))) /\
  (get_category arg None = None -> get_all_schedules doc = [] ->
     get_category_schedules arg doc = Return []) /\
  (get_category arg None = None -> get_all_schedules doc <> [] ->
     get_category_schedules arg doc = Raise AttributeError).
Proof.
  unfold get_category_schedules, get_all_schedules. simpl.
  split; [|split].
  - intros cat ->. apply (schedules_of_category_loop cat).
  - intros -> ->. reflexivity.
  - intros ->. destruct (schedules_of (doc_or_host HOST_APP_doc doc));
      [congruence|reflexivity].
Qed.

End Categories.

(** ** Schedule fields and filters *)

Section Schedules.

Variable ViewSchedule : Type.
Variable ScheduleFieldId : Type.
Variable ScheduleField : Type.
Variable ScheduleFilter : Type.

(** [schedule.Definition.GetFieldOrder()], [.GetField(id)] and
    [.GetFilters()] *)
Variable GetFieldOrder : ViewSchedule -> list ScheduleFieldId.
Variable GetField : ViewSchedule -> ScheduleFieldId -> ScheduleField.
Variable GetFilters : ViewSchedule -> list ScheduleFilter.
(** [field.GetName()], [field.FieldId], [sfilter.FieldId] and [==] on
    field ids *)
Variable Field_GetName : ScheduleField -> string.
Variable Field_FieldId : ScheduleField -> ScheduleFieldId.
Variable Filter_FieldId : ScheduleFilter -> ScheduleFieldId.
Variable ScheduleFieldId_eqb : ScheduleFieldId -> ScheduleFieldId -> bool.









End Schedules.

(** ** Views *)

(** [DB.ViewType]: the members that [GRAPHICAL_VIEWTYPES] lists, by name,
    and the members it does not list, by number. *)
Inductive ViewType : Type :=
| ViewType_FloorPlan
| ViewType_CeilingPlan
| ViewType_Elevation
| ViewType_ThreeD
| ViewType_Schedule
| ViewType_DrawingSheet
| ViewType_Report
| ViewType_DraftingView
| ViewType_Legend
| ViewType_EngineeringPlan
| ViewType_AreaPlan
| ViewType_Section
| ViewType_Detail
| ViewType_CostReport
| ViewType_LoadsReport
| ViewType_PresureLossReport
| ViewType_ColumnSchedule
| ViewType_PanelSchedule
| ViewType_Walkthrough
| ViewType_Rendering
| ViewType_unlisted (number : Z).

Definition ViewType_eq_dec (a b : ViewType) : {a = b} + {a <> b}.
Proof.
  decide equality. apply Z.eq_dec.
Defined.

Definition GRAPHICAL_VIEWTYPES : list ViewType :=
  [ViewType_FloorPlan; ViewType_CeilingPlan; ViewType_Elevation;
   ViewType_ThreeD; ViewType_Schedule; ViewType_DrawingSheet;
   ViewType_Report; ViewType_DraftingView; ViewType_Legend;
   ViewType_EngineeringPlan; ViewType_AreaPlan; ViewType_Section;
   ViewType_Detail; ViewType_CostReport; ViewType_LoadsReport;
   ViewType_PresureLossReport; ViewType_ColumnSchedule;
   ViewType_PanelSchedule; ViewType_Walkthrough; ViewType_Rendering].

Section Views.

Variable Document : Type.
Variable View : Type.
Variable HOST_APP_doc : Document.
(** [DB.FilteredElementCollector(d).OfClass(DB.View)
       .WhereElementIsNotElementType().ToElements()] *)
Variable views_of : Document -> list View.
(** [x.ViewType], [x.IsTemplate], [x.ViewSpecific] and [x.ViewName] *)
Variable View_ViewType : View -> ViewType.
Variable IsTemplate : View -> bool.
Variable ViewSpecific : View -> bool.
Variable ViewName : View -> string.

(** The test of the comprehension of [get_all_views]. *)
Definition listed_view (x : View) : bool :=
  (if in_dec ViewType_eq_dec (View_ViewType x) GRAPHICAL_VIEWTYPES
   then true else false)
  && negb (IsTemplate x) && negb (ViewSpecific x).

Definition get_all_views (doc : option Document)
    (include_nongraphical : bool) : list View :=
  let all_views := views_of (doc_or_host HOST_APP_doc doc) in
  if negb include_nongraphical then filter listed_view all_views
  else all_views.

(** The loop runs over [get_all_views(doc=doc)]: the listed views only. *)
Definition get_view_by_name (view_name : string) (doc : option Document)
  : option View :=
  find (fun view => String.eqb (ViewName view) view_name)
       (get_all_views (Some (doc_or_host HOST_APP_doc doc)) false).

Lemma find_in_filter (A : Type) (f g : A -> bool) (l : list A) :
  find f (filter g l) = find (fun x => g x && f x) l.
Proof.
  induction l as [|a l IH]; simpl; [reflexivity|].
  destruct (g a); simpl; [|assumption]. now destruct (f a).
Qed.

(** [get_view_by_name] returns the first view of the document, in the
    collector's order, that has the name, is of a listed view type and is
    neither a template nor view specific.  A template of that name is
    passed over, and when only such views have the name the answer is
    [None]. *)
Theorem get_view_by_name_passes_over_templates (view_name : string)
    (doc : option Document) (view : View) :
  let wanted x :=
    ViewName x = view_name /\
    In (View_ViewType x) GRAPHICAL_VIEWTYPES /\
    IsTemplate x = false /\ ViewSpecific x = false in
  get_view_by_name view_name doc = Some view <->
  exists before after,
    views_of (doc_or_host HOST_APP_doc doc) = before ++ view :: after /\
    wanted view /\
    forall earlier, In earlier before -> ~ wanted earlier.
Proof.
  intros wanted.
  assert (Hwanted : forall x,
            listed_view x && String.eqb (ViewName x) view_name = true
            <-> wanted x).
  { intros x. unfold wanted, listed_view.
    rewrite !andb_true_iff, !negb_true_iff, String.eqb_eq.
    destruct (in_dec ViewType_eq_dec (View_ViewType x) GRAPHICAL_VIEWTYPES);
      split; intros H; try tauto.
    destruct H as [[[H _] _] _]. discriminate. }
  unfold get_view_by_name, get_all_views. simpl.
  rewrite find_in_filter, find_first_split.
  split; intros (before & after & Hsplit & Hv & Hbefore);
    exists before, after; (split; [assumption|]); split.
  - now apply Hwanted.
  - intros earlier Hin Hw. apply Hwanted in Hw.
    rewrite (Hbefore earlier Hin) in Hw. discriminate.
  - now apply Hwanted.
  - intros y Hin.
    destruct (listed_view y && String.eqb (ViewName y) view_name) eqn:E;
      [|reflexivity].
    apply Hwanted in E. now destruct (Hbefore y Hin).
Qed.

End Views.

(** ** Families *)

(** [DB.BuiltInParameter]: the two members the family searches name, and
    the other members by number. *)
Inductive BuiltInParameter : Type :=
| SYMBOL_FAMILY_NAME_PARAM
| SYMBOL_NAME_PARAM
| BuiltInParameter_unlisted (number : Z).

Section Families.

Variable Document : Type.
Variable Element : Type.
(** [DB.ElementId(bip)] *)
Variable ElementId_of : BuiltInParameter -> ElementId.
Variable HOST_APP_doc : Document.
(** [DB.FilteredElementCollector(d).WherePasses(f)], narrowed to element
    types or to what is no element type, [.ToElements()] *)
Variable passing_types : Document -> ElementParameterFilter -> list Element.
Variable passing_instances :
  Document -> ElementParameterFilter -> list Element.






End Families.

(** ** The failures the module signals *)

(** C2, as amended: the failures the module signals on purpose are
    [PyRevitException]s.  [get_sharedparam_definition_file] raises one
    exactly when no shared parameters file is defined or it does not
    open, and [get_links] exactly when the document has no path name, the
    path has no model path, or reading the transmission data fails: host
    preconditions unmet.  [get_biparam_stringequals_filter] raises one
    exactly when its dictionary is empty, with no host precondition
    involved.  A lookup that finds nothing is no failure: [find_workset]
    answers [None] exactly when no workset matches. *)
Theorem explicit_failures_are_PyRevitExceptions :
  (forall (BuiltInParameter : Type)
          (ElementId_of : BuiltInParameter -> ElementId) items,
     (raises (get_biparam_stringequals_filter ElementId_of items) = true
      <-> items = []) /\
     (forall e, get_biparam_stringequals_filter ElementId_of items = Raise e ->
                e = PyRevitException "Error creating filters.")) /\
  (forall (DefinitionFile : Type) (app : Application DefinitionFile),
     (raises (get_sharedparam_definition_file app) = true <->
      str_truthy (SharedParametersFilename app) = false \/
      OpenSharedParameterFile app = None) /\
     (forall e, get_sharedparam_definition_file app = Raise e ->
                is_PyRevitException e = true)) /\
  (forall (Document Element ModelPath TransmissionData
           ExternalFileReference ExternalFileReferenceType : Type)
          reftype_eqb reftype_truthy (HOST_APP_doc : Document) PathName
          ConvertUserVisiblePathToModelPath
          (ReadTransmissionData :
             ModelPath -> result (option TransmissionData))
          GetAllExternalFileReferenceIds GetLastSavedReferenceData
          (GetElement : Document -> ElementId -> option Element)
          (reftype_of : ExternalFileReference -> ExternalFileReferenceType)
          (links_error_message : ModelPath -> exn -> string)
          linktype doc,
     let links :=
       get_links reftype_eqb reftype_truthy HOST_APP_doc PathName
         ConvertUserVisiblePathToModelPath ReadTransmissionData
         GetAllExternalFileReferenceIds GetLastSavedReferenceData
         GetElement reftype_of links_error_message linktype doc in
     (raises links = true <->
      str_truthy (PathName (doc_or_host HOST_APP_doc doc)) = false \/
      exists location,
        PathName (doc_or_host HOST_APP_doc doc) = Some location /\
        (ConvertUserVisiblePathToModelPath location = None \/
         exists modelPath,
           ConvertUserVisiblePathToModelPath location = Some modelPath /\
           raises (read_transmission_data ReadTransmissionData
                     GetAllExternalFileReferenceIds
                     GetLastSavedReferenceData modelPath) = true)) /\
     (forall e, links = Raise e -> is_PyRevitException e = true)) /\
  (forall (Document Workset : Type) (HOST_APP_doc : Document)
          (ToWorksets : Document -> list Workset) Workset_Name arg doc
          partial,
     find_workset HOST_APP_doc ToWorksets Workset_Name arg doc partial = None
     <->
     forall workset,
       In workset (ToWorksets (doc_or_host HOST_APP_doc doc)) ->
       ~ workset_matches Workset_Name arg partial workset).
Proof.
  split; [|split; [|split]].
  - intros B ElementId_of items.
    destruct (get_biparam_stringequals_filter_cases ElementId_of items)
      as [(-> & H)|(Hne & H)]; rewrite H; simpl.
    + repeat split. now intros e [= <-].
    + repeat split; try discriminate. intros ->. now destruct Hne.
  - intros DefinitionFile app. split.
    + apply get_sharedparam_definition_file_raises.
    + intros e He. now apply get_sharedparam_definition_file_raise in He.
  - intros. cbv zeta. split.
    + apply get_links_raises.
    + intros e He. eapply get_links_raise; eassumption.
  - intros. apply find_workset_none_iff.
Qed.

(** ** A worked document *)

(** Six elements and three parameter names.  [Mark] is a string on
    elements 1, 2, 4 and 5 (text, blanks only, null, and the text [None])
    and an integer on element 3; [Phase] is on element 1 only, with
    storage type [StorageType.None]; [Comments] is a string on elements 1
    and 2, null and the text [NONE].  Doubles are stood for by
    integers. *)
Definition ex_param (st : StorageType) (s : option string) (i : Z)
  : RevitParameter Z :=
  Build_RevitParameter st 0%Z i s (Build_ElementId (-1)).

Definition ex_lookup (el : nat) (name : string) : option (RevitParameter Z) :=
  if String.eqb name "Mark" then
    match el with
    | 1 => Some (ex_param StorageType_String (Some "A-1"%string) 0)
    | 2 => Some (ex_param StorageType_String (Some "   "%string) 0)
    | 3 => Some (ex_param StorageType_Integer None 7)
    | 4 => Some (ex_param StorageType_String None 0)
    | 5 => Some (ex_param StorageType_String (Some "None"%string) 0)
    | _ => None
    end
  else if String.eqb name "Phase" then
    match el with
    | 1 => Some (ex_param StorageType_None None 0)
    | _ => None
    end
  else if String.eqb name "Comments" then
    match el with
    | 1 => Some (ex_param StorageType_String None 0)
    | 2 => Some (ex_param StorageType_String (Some "NONE"%string) 0)
    | _ => None
    end
  else None.

Definition ex_elements (_ : unit) : list nat := [1; 2; 3; 4; 5; 6].

Definition ex_strtype (v : value Z) : string :=
  match v with
  | VStr s => s
  | VNone => "None"
  | _ => "0"
  end.

Definition ex_value_range (name : string) : result (list (value Z)) :=
  get_value_range Z.eqb Z.eqb tt ex_elements ex_lookup ex_strtype name None.

Definition ex_elements_by_parameter (name : string) (v : value Z)
    (partial : bool) : result (list nat) :=
  get_elements_by_parameter Z.eqb Z.eqb tt ex_elements ex_lookup name v None
    partial.

Example ex_value_range_Mark :
  ex_value_range "Mark" = Return [VStr "A-1"; VStr "   "; VInt 7].
Proof. reflexivity. Qed.

Example ex_elements_by_parameter_Mark :
  ex_elements_by_parameter "Mark" (VStr "A") true = Return [1] /\
  ex_elements_by_parameter "Mark" (VStr "A") false = Return [] /\
  ex_elements_by_parameter "Mark" (VInt 7) false = Return [3] /\
  ex_elements_by_parameter "Mark" VNone false = Return [4] /\
  ex_elements_by_parameter "Mark" (VInt 7) true = Raise TypeError.
Proof. repeat split. Qed.

Ltac each_element H :=
  repeat (destruct H as [<-|H]; [|]); [..|destruct H].

(** C5 at its failing document: no element has a usable value of
    [Phase], and neither [get_value_range] nor
    [get_elements_by_parameter] returns the empty result: the one element
    that has the parameter has it with storage type [StorageType.None],
    and reading it fails. *)
Lemma lookup_without_usable_value_raises :
  (forall el v, In el (ex_elements tt) ->
                ~ carries_usable ex_lookup ex_strtype "Phase" el v) /\
  ex_value_range "Phase" = Raise UnboundLocalError /\
  ex_elements_by_parameter "Phase" (VStr "New") false
    = Raise UnboundLocalError.
Proof.
  split; [|split; reflexivity].
  intros el v Hin (p & Hp & Hv & _). simpl in Hin.
  each_element Hin; try discriminate Hp.
  injection Hp as <-. discriminate Hv.
Qed.

Lemma ex_Mark_is_read (el : nat) (p : RevitParameter Z) :
  In el (ex_elements tt) -> ex_lookup el "Mark" = Some p ->
  storage_type p <> StorageType_None.
Proof.
  intros Hin Hp. simpl in Hin.
  each_element Hin; try discriminate Hp; injection Hp as <-; discriminate.
Defined.

(** On the worked document no value of [Comments] is usable and no
    element has a [Width]. *)
Lemma get_value_range_empty_on_worked_document :
  ex_value_range "Comments" = Return [].
Proof.
  apply get_value_range_empty.
  - intros el p Hin Hp. simpl in Hin.
    each_element Hin; try discriminate Hp; injection Hp as <-; discriminate.
  - intros el v Hin (p & Hp & Hv & Hnone & Hstr). simpl in Hin.
    each_element Hin; try discriminate Hp; injection Hp as <-;
      injection Hv as <-; [discriminate Hnone|now apply Hstr].
Defined.

Lemma get_elements_by_parameter_empty_on_worked_document :
  ex_elements_by_parameter "Width" (VInt 3) true = Return [].
Proof.
  apply get_elements_by_parameter_empty.
  intros el Hin. simpl in Hin. each_element Hin; reflexivity.
Defined.

(** The search for [A] on the worked document. *)
Lemma get_elements_by_parameter_filters_worked_document :
  exists found_els,
    ex_elements_by_parameter "Mark" (VStr "A") true = Return found_els /\
    found_els =
      filter (param_matches Z.eqb Z.eqb ex_lookup "Mark" (VStr "A") true)
             (ex_elements tt).
Proof.
  destruct (get_elements_by_parameter_filters_host_collection
              Z.eqb Z.eqb tt ex_elements ex_lookup "Mark" (VStr "A") None
              (partial := true) ex_Mark_is_read (fun _ => eq_refl))
    as (found_els & Hret & Hfilter & _).
  exists found_els. split; assumption.
Defined.

(** C6 at its failing document: [get_elements_by_parameter] does not
    always return the elements whose parameter matches.  No element of the
    worked document has a [Phase] equal to [New], so the matching elements
    are none; the search raises, because the one element that has a
    [Phase] has it with storage type [StorageType.None] and reading it
    fails in [get_param_value].  A partial search for the integer 7 in
    [Mark] fails too, on the first string it is tested in, while element 3
    has a [Mark] equal to it. *)
Lemma parameter_search_raises_instead_of_filtering :
  filter (param_matches Z.eqb Z.eqb ex_lookup "Phase" (VStr "New") false)
         (ex_elements tt) = [] /\
  ex_elements_by_parameter "Phase" (VStr "New") false
    = Raise UnboundLocalError /\
  ex_elements_by_parameter "Phase" (VStr "New") true
    = Raise UnboundLocalError /\
  filter (param_matches Z.eqb Z.eqb ex_lookup "Mark" (VInt 7) true)
         (ex_elements tt) = [3] /\
  ex_elements_by_parameter "Mark" (VInt 7) true = Raise TypeError.
Proof. repeat split. Qed.

(** ** Worked grids *)

(** Grids are numbered and points are numbers.  Grids of different parity
    cross, at the point numbered by the even one; two points are the same
    to the dictionary when they agree on their halves. *)
Definition ex_Intersect (g1 g2 : nat) : SetComparisonResult * list nat :=
  if Nat.eqb g1 g2 then (Equal, [])
  else if Nat.eqb (Nat.modulo g1 2) (Nat.modulo g2 2) then (Disjoint, [])
  else (Overlap, [if Nat.even g1 then g1 else g2]).

Definition ex_point_eqb (a b : XYZPoint nat) : bool :=
  Nat.eqb (Nat.div (unwrap a) 2) (Nat.div (unwrap b) 2).

Definition ex_gridpoints (source : list nat) : result (list (GridPoint nat nat)) :=
  get_gridpoints tt (fun _ _ => true) (fun _ : unit => [])
    (fun _ : unit => @nil unit) (fun _ => None) ex_Intersect ex_point_eqb
    (Some source) false None.

Example ex_gridpoints_of_three :
  ex_gridpoints [1; 2; 3] =
  Return [Build_GridPoint (Build_XYZPoint 2) [3; 2]].
Proof. reflexivity. Qed.

Lemma ex_Overlap_has_result (g1 g2 : nat) :
  fst (ex_Intersect g1 g2) = Overlap -> snd (ex_Intersect g1 g2) <> [].
Proof.
  unfold ex_Intersect.
  destruct (Nat.eqb g1 g2); [discriminate|].
  destruct (Nat.eqb (Nat.modulo g1 2) (Nat.modulo g2 2)); discriminate.
Defined.

Lemma ex_point_eqb_trans (a b c : XYZPoint nat) :
  ex_point_eqb a b = true -> ex_point_eqb b c = true ->
  ex_point_eqb a c = true.
Proof.
  unfold ex_point_eqb. rewrite !Nat.eqb_eq. congruence.
Defined.

(** The intersections of C1 on three worked grids. *)
Lemma get_gridpoints_on_three_worked_grids :
  exists gints,
    gridpoints_loop ex_Intersect ex_point_eqb [1; 2; 3] =
    Return (list_prod [1; 2; 3] [1; 2; 3], gints).
Proof.
  destruct (get_gridpoints_pairwise_intersections
              tt (fun _ _ => true) (fun _ : unit => [])
              (fun _ : unit => @nil unit) (fun _ => None)
              ex_Intersect ex_point_eqb
              (fun a => Nat.eqb_refl _) (fun a b => Nat.eqb_sym _ _)
              ex_point_eqb_trans ex_Overlap_has_result [1; 2; 3])
    as (gints & Hloop & _).
  exists gints. exact Hloop.
Defined.

(** Points on a line, the distance between two of them the absolute
    difference. *)
Definition ex_DistanceTo (a b : Z) : Z := Z.abs (a - b).

Definition ex_gp (x : Z) : GridPoint nat Z :=
  Build_GridPoint (Build_XYZPoint x) [].

Definition ex_closest (element : Z) (gridpoints : list (GridPoint nat Z))
  : result (GridPoint nat Z) :=
  get_closest_gridpoint Z.ltb ex_DistanceTo (fun e : Z => e) element
    gridpoints.

Example ex_closest_first_of_two :
  ex_closest 3 [ex_gp 9; ex_gp 4; ex_gp 2; ex_gp 7] = Return (ex_gp 4) /\
  ex_closest 3 [] = Raise IndexError.
Proof. split; reflexivity. Qed.

Lemma Z_ltb_cotrans (a b c : Z) :
  Z.ltb a b = true -> Z.ltb a c = true \/ Z.ltb c b = true.
Proof.
  rewrite !Z.ltb_lt. lia.
Defined.

Lemma Z_ltb_trans (a b c : Z) :
  Z.ltb a b = true -> Z.ltb b c = true -> Z.ltb a c = true.
Proof.
  rewrite !Z.ltb_lt. lia.
Defined.

(** The closest grid point of C9 on a worked list. *)
Lemma get_closest_gridpoint_on_worked_list :
  exists i gp,
    ex_closest 3 [ex_gp 9; ex_gp 4; ex_gp 2; ex_gp 7] = Return gp /\
    nth_error [ex_gp 9; ex_gp 4; ex_gp 2; ex_gp 7] i = Some gp.
Proof.
  destruct (get_closest_gridpoint_first_minimum nat
              Z.ltb ex_DistanceTo (fun e : Z => e)
              Z.ltb_irrefl Z_ltb_trans Z_ltb_cotrans 3%Z)
    as [_ Hclosest].
  destruct (Hclosest [ex_gp 9; ex_gp 4; ex_gp 2; ex_gp 7])
    as (i & gp & Hret & Hnth & _); [discriminate|].
  exists i, gp. split; assumption.
Defined.

(** ** Counterexamples *)

(** C2 as stated fails: with an empty dictionary and nothing else amiss,
    [get_biparam_stringequals_filter] raises; with one item it returns. *)
Lemma empty_mapping_raises :
  get_biparam_stringequals_filter Build_ElementId [] =
    Raise (PyRevitException "Error creating filters.") /\
  raises (get_biparam_stringequals_filter Build_ElementId
            [(1%Z, "Door"%string)]) = false.
Proof. split; reflexivity. Qed.


(** ** Further worked cases *)

(** On the worked document the integer 7 entered the set of [Mark] after
    the text [A-1] and differs from it. *)
Lemma get_value_range_values_differ_on_worked_document :
  py_eq Z.eqb Z.eqb (VInt 7) (VStr "A-1") = false.
Proof.
  apply (get_value_range_values_differ Z.eqb Z.eqb tt ex_elements ex_lookup
           ex_strtype "Mark" None
           (vals := [VStr "A-1"; VStr "   "; VInt 7]) (i := 0) (j := 2)).
  - reflexivity.
  - lia.
  - reflexivity.
  - reflexivity.
Defined.

(** Exact and partial search for [A-1] on the worked document. *)
Lemma get_elements_by_parameter_partial_extends_exact_on_worked_document :
  exists exact partial,
    ex_elements_by_parameter "Mark" (VStr "A-1") false = Return exact /\
    ex_elements_by_parameter "Mark" (VStr "A-1") true = Return partial /\
    forall el, In el exact -> In el partial.
Proof.
  destruct (get_elements_by_parameter_partial_extends_exact
              Z.eqb Z.eqb tt ex_elements ex_lookup "Mark" (VStr "A-1") None
              ex_Mark_is_read eq_refl)
    as (exact & partial & Hexact & Hpartial & _ & Hincl).
  exists exact, partial. repeat split; assumption.
Defined.

Lemma ex_odd_grids_do_not_overlap (grid1 grid2 : nat) :
  In grid1 [1; 3] -> In grid2 [1; 3] ->
  fst (ex_Intersect grid1 grid2) <> Overlap.
Proof.
  intros H1 H2. simpl in H1, H2.
  destruct H1 as [<-|[<-|[]]]; destruct H2 as [<-|[<-|[]]]; discriminate.
Defined.

(** Two worked grids of the same parity do not cross. *)
Lemma get_gridpoints_without_overlap_on_worked_grids :
  ex_gridpoints [1; 3] = Return [] /\
  (gridpoints <- ex_gridpoints [1; 3] ;;
   get_closest_gridpoint Z.ltb
     (fun a b : nat => Z.abs (Z.of_nat a - Z.of_nat b)) Z.to_nat 0%Z
     gridpoints) = Raise IndexError.
Proof.
  apply (get_gridpoints_without_overlap
           Z.ltb tt (fun _ _ => true) (fun _ : unit => [])
           (fun _ : unit => @nil unit) (fun _ => None)
           ex_Intersect (fun a b : nat => Z.abs (Z.of_nat a - Z.of_nat b))
           Z.to_nat ex_point_eqb
           (Some [1; 3]) false None 0%Z ex_odd_grids_do_not_overlap).
Defined.

(** Four worked grids, their direction their parity. *)
Lemma get_all_grids_by_direction_on_worked_grids :
  exists group,
    dict_get ex_point_eqb (Build_XYZPoint (3 mod 2))
      (get_all_grids_by_direction tt (fun _ _ => true)
         (fun _ : unit => [1; 2; 3; 4]) (fun _ : unit => @nil unit)
         (fun _ => None) ex_point_eqb (fun g => g mod 2) false None)
    = Some group /\
    In 3 group.
Proof.
  destruct (get_all_grids_by_direction_partitions
              tt (fun _ _ => true) (fun _ : unit => [1; 2; 3; 4])
              (fun _ : unit => @nil unit) (fun _ => None) ex_point_eqb
              (fun a => Nat.eqb_refl _) (fun a b => Nat.eqb_sym _ _)
              ex_point_eqb_trans (fun g => g mod 2) false None)
    as (_ & Hgroup & _).
  apply (Hgroup 3). simpl. auto.
Defined.

(** Two built-in categories by their numbers. *)
Lemma get_builtincategory_of_its_id_on_two_categories :
  get_builtincategory tt (fun _ : unit => @nil unit) (fun _ => [])
    (fun _ => EmptyString) (fun _ => Build_ElementId 0) (fun z : Z => z)
    [(-2000011)%Z; (-2000023)%Z]
    (ById (Build_ElementId (-2000023))) None
  = Some (-2000023)%Z.
Proof.
  apply (get_builtincategory_of_its_id tt (fun _ : unit => @nil unit)
           (fun _ => []) (fun _ => EmptyString) (fun _ => Build_ElementId 0)
           (fun z : Z => z) [(-2000011)%Z; (-2000023)%Z]
           (bicat := (-2000023)%Z) None).
  - simpl. auto.
  - discriminate.
  - intros other _ H. exact H.
Defined.
